(** * DarkTodo: the state store and view of [src/App.tsx]

    A shallow embedding of the todo application: the task list, its
    handlers, the persistence functions over [localStorage] and the part
    of the rendered tree that the automated tests address, followed by
    the properties of the specification.

    Conventions.
    - A JavaScript string is its sequence of UTF-16 code units, a
      [list N]; [js "..."] turns an ASCII literal into one.
    - An exception is a value of [result]; [try_catch] is [try]/[catch].
    - [crypto.randomUUID()] and [new Date().toISOString()] are inputs of
      the handler that uses them.
    - [console.error] output is not modelled. *)

From Stdlib Require Import List NArith Ascii String Lia Bool Arith.
From stdpp Require Import base decidable option list numbers gmap.
Import ListNotations.

Local Open Scope N_scope.
Local Open Scope nat_scope.

(** ** Strings *)

Abbreviation jsstring := (list N).

Definition js (s : string) : jsstring :=
  List.map N_of_ascii (list_ascii_of_string s).

(** Strict equality [a === b] of two strings. *)
Definition str_eqb (a b : jsstring) : bool := bool_decide (a = b).

(** WhiteSpace and LineTerminator code points of ECMAScript, the ones
    [String.prototype.trim] strips. *)
Definition is_whitespace (c : N) : bool :=
  ((9 <=? c) && (c <=? 13) ||
   (c =? 32) || (c =? 160) || (c =? 5760) ||
   (8192 <=? c) && (c <=? 8202) ||
   (c =? 8232) || (c =? 8233) || (c =? 8239) || (c =? 8287) ||
   (c =? 12288) || (c =? 65279))%N.

Fixpoint trimStart (s : jsstring) : jsstring :=
  match s with
  | c :: rest => if is_whitespace c then trimStart rest else s
  | [] => []
  end.

Definition trimEnd (s : jsstring) : jsstring := rev (trimStart (rev s)).

Definition trim (s : jsstring) : jsstring := trimEnd (trimStart s).

(** ** Exceptions *)

Inductive exn := SecurityError | QuotaExceededError | SyntaxError.

Inductive result (A : Type) :=
| Ok (a : A)
| Throw (e : exn).
Arguments Ok {A} a.
Arguments Throw {A} e.

#[global] Instance result_ret : MRet result := fun A a => Ok a.

#[global] Instance result_bind : MBind result := fun A B k r =>
  match r with
  | Ok a => k a
  | Throw e => Throw e
  end.

Definition try_catch {A} (body : result A) (handler : exn -> A) : A :=
  match body with
  | Ok a => a
  | Throw e => handler e
  end.

(** ** The data model *)

Record Todo := mkTodo {
  id : jsstring;
  text : jsstring;
  completed : bool;
  createdAt : jsstring
}.

(** The string literal type ['all' | 'active' | 'completed']. *)
Inductive Filter := All | Active | Completed.

Definition Filter_text (f : Filter) : jsstring :=
  match f with
  | All => js "all"
  | Active => js "active"
  | Completed => js "completed"
  end.

Definition STORAGE_TODOS : jsstring := js "darktodo_todos".
Definition STORAGE_DARKMODE : jsstring := js "darktodo_darkmode".

(** ** [localStorage]

    A per-origin key-value store of strings.  Access can be refused as a
    whole (every call throws [SecurityError]) and a write that would
    take the stored code units beyond the quota throws
    [QuotaExceededError] and leaves the store as it was. *)

Record Storage := mkStorage {
  denied : bool;
  quota : option nat;
  items : gmap (list N) (list N)
}.

Definition usage (m : gmap (list N) (list N)) : nat :=
  map_fold (fun k v acc => length k + length v + acc) 0 m.

Module localStorage.

Definition getItem (key : jsstring) (st : Storage) : result (option jsstring) :=
  if denied st then Throw SecurityError else Ok (items st !! key).

Definition setItem (key value : jsstring) (st : Storage) : result Storage :=
  if denied st then Throw SecurityError
  else
    let items' := <[key := value]> (items st) in
    match quota st with
    | Some q =>
        if q <? usage items' then Throw QuotaExceededError
        else Ok (mkStorage (denied st) (quota st) items')
    | None => Ok (mkStorage (denied st) (quota st) items')
    end.

End localStorage.

(** ** [JSON.stringify] at the type [Todo[]]

    [QuoteJSONString] walks the code points of the string: a surrogate
    pair is copied, a lone surrogate and a control character are written
    as an escape. *)

(** The structural characters of the JSON grammar, by the names RFC 8259
    gives them, as code units. *)
Abbreviation quotation_mark := (34%N).
Abbreviation reverse_solidus := (92%N).
Abbreviation begin_array := (91%N).
Abbreviation end_array := (93%N).
Abbreviation begin_object := (123%N).
Abbreviation end_object := (125%N).
Abbreviation name_separator := (58%N).
Abbreviation value_separator := (44%N).

Definition is_leading_surrogate (c : N) : bool := ((0xD800 <=? c) && (c <=? 0xDBFF))%N.
Definition is_trailing_surrogate (c : N) : bool := ((0xDC00 <=? c) && (c <=? 0xDFFF))%N.

Definition hex_digit (n : N) : N := (if n <? 10 then 48 + n else 87 + n)%N.

(** [\uXXXX], with lower-case digits; 117 is the letter u. *)
Definition UnicodeEscape (c : N) : jsstring :=
  [reverse_solidus; 117; hex_digit (c / 4096 mod 16); hex_digit (c / 256 mod 16);
   hex_digit (c / 16 mod 16); hex_digit (c mod 16)]%N.

(** The two-character escapes end in the letters b, t, n, f, r (98, 116,
    110, 102, 114), in the quotation mark or in the reverse solidus. *)
Definition quote_code_point (c : N) : jsstring :=
  (if c =? 8 then [reverse_solidus; 98]
   else if c =? 9 then [reverse_solidus; 116]
   else if c =? 10 then [reverse_solidus; 110]
   else if c =? 12 then [reverse_solidus; 102]
   else if c =? 13 then [reverse_solidus; 114]
   else if c =? quotation_mark then [reverse_solidus; quotation_mark]
   else if c =? reverse_solidus then [reverse_solidus; reverse_solidus]
   else if (c <? 32) || is_leading_surrogate c || is_trailing_surrogate c
        then UnicodeEscape c
   else [c])%N.

Fixpoint quote_code_points (s : jsstring) : jsstring :=
  match s with
  | [] => []
  | c :: rest =>
      if is_leading_surrogate c then
        match rest with
        | d :: rest' =>
            if is_trailing_surrogate d then c :: d :: quote_code_points rest'
            else quote_code_point c ++ quote_code_points rest
        | [] => quote_code_point c
        end
      else quote_code_point c ++ quote_code_points rest
  end.

Definition QuoteJSONString (s : jsstring) : jsstring :=
  [quotation_mark] ++ quote_code_points s ++ [quotation_mark].

Definition stringify_boolean (b : bool) : jsstring :=
  if b then js "true" else js "false".

(** The own properties of a [Todo] object, in creation order. *)
Definition stringify_Todo (t : Todo) : jsstring :=
  js "{" ++ QuoteJSONString (js "id") ++ js ":" ++ QuoteJSONString (id t)
  ++ js "," ++ QuoteJSONString (js "text") ++ js ":" ++ QuoteJSONString (text t)
  ++ js "," ++ QuoteJSONString (js "completed") ++ js ":" ++ stringify_boolean (completed t)
  ++ js "," ++ QuoteJSONString (js "createdAt") ++ js ":" ++ QuoteJSONString (createdAt t)
  ++ js "}".

Fixpoint join_comma (parts : list jsstring) : jsstring :=
  match parts with
  | [] => []
  | [p] => p
  | p :: more => p ++ js "," ++ join_comma more
  end.

(** ** [JSON.parse] *)

(** A parsed JSON text.  A number is kept as the literal it was read
    from; an object as its members in the order of the text. *)
#[warnings="-register-all"]
Inductive json :=
| JNull
| JBoolean (b : bool)
| JNumber (literal : jsstring)
| JString (s : jsstring)
| JArray (elements : list json)
| JObject (members : list (jsstring * json)).

Inductive parsed (A : Type) :=
| Parsed (a : A) (rest : jsstring)
| Malformed
| OutOfFuel.
Arguments Parsed {A} a rest.
Arguments Malformed {A}.
Arguments OutOfFuel {A}.

(** Space, tab, line feed, carriage return. *)
Definition is_json_ws (c : N) : bool := ((c =? 32) || (c =? 9) || (c =? 10) || (c =? 13))%N.

Fixpoint skip_ws (s : jsstring) : jsstring :=
  match s with
  | c :: rest => if is_json_ws c then skip_ws rest else s
  | [] => []
  end.

(** The digits 0 to 9 (48 to 57) and the letters a to f (97 to 102) and
    A to F (65 to 70). *)
Definition hex_value (c : N) : option N :=
  (if (48 <=? c) && (c <=? 57) then Some (c - 48)
   else if (97 <=? c) && (c <=? 102) then Some (c - 87)
   else if (65 <=? c) && (c <=? 70) then Some (c - 55)
   else None)%N.

Definition hex4 (h1 h2 h3 h4 : N) : option N :=
  match hex_value h1, hex_value h2, hex_value h3, hex_value h4 with
  | Some a, Some b, Some c, Some d => Some (((a * 16 + b) * 16 + c) * 16 + d)%N
  | _, _, _, _ => None
  end.

(** What follows the reverse solidus of an escape other than [\u]: the
    quotation mark, the reverse solidus, the solidus (47), or one of the
    letters b, f, n, r, t. *)
Definition unescape (e : N) : option N :=
  (if e =? quotation_mark then Some quotation_mark
   else if e =? reverse_solidus then Some reverse_solidus
   else if e =? 47 then Some 47
   else if e =? 98 then Some 8
   else if e =? 102 then Some 12
   else if e =? 110 then Some 10
   else if e =? 114 then Some 13
   else if e =? 116 then Some 9
   else None)%N.

Definition cons_unit (c : N) (r : option (jsstring * jsstring)) : option (jsstring * jsstring) :=
  match r with
  | Some (s, rest) => Some (c :: s, rest)
  | None => None
  end.

(** The characters of a string literal after its opening quote, up to
    and including the closing quote. *)
Fixpoint parse_characters (s : jsstring) : option (jsstring * jsstring) :=
  match s with
  | [] => None
  | c :: rest =>
      if (c =? quotation_mark)%N then Some ([], rest)
      else if (c =? reverse_solidus)%N then
        match rest with
        | [] => None
        | e :: rest1 =>
            if (e =? 117)%N then (* the letter u *)
              match rest1 with
              | h1 :: h2 :: h3 :: h4 :: rest2 =>
                  match hex4 h1 h2 h3 h4 with
                  | Some u => cons_unit u (parse_characters rest2)
                  | None => None
                  end
              | _ => None
              end
            else
              match unescape e with
              | Some u => cons_unit u (parse_characters rest1)
              | None => None
              end
        end
      else if (c <? 32)%N then None
      else cons_unit c (parse_characters rest)
  end.

Definition is_digit (c : N) : bool := ((48 <=? c) && (c <=? 57))%N.

Fixpoint digits (s : jsstring) : jsstring * jsstring :=
  match s with
  | c :: rest =>
      if is_digit c then let (ds, r) := digits rest in (c :: ds, r) else ([], s)
  | [] => ([], [])
  end.

(** A number: an optional minus sign; then a single 0, or a digit from
    1 to 9 followed by any digits; then optionally a point and at least
    one digit; then optionally e or E, an optional sign and at least one
    digit.  Each part returns what it read and the rest of the text. *)
(* 45 and 43 are the minus and the plus sign, 46 the point, 48 the
   digit 0, 101 and 69 the letters e and E. *)
Definition number_sign (s : jsstring) : jsstring * jsstring :=
  match s with
  | c :: r => if (c =? 45)%N then ([c], r) else ([], s)
  | [] => ([], s)
  end.

Definition number_int (s : jsstring) : option (jsstring * jsstring) :=
  match s with
  | c :: r =>
      if (c =? 48)%N then Some ([c], r)
      else if is_digit c then let (ds, r') := digits r in Some (c :: ds, r')
      else None
  | [] => None
  end.

Definition number_frac (s : jsstring) : option (jsstring * jsstring) :=
  match s with
  | p :: r =>
      if (p =? 46)%N then
        match digits r with
        | ([], _) => None
        | (ds, r') => Some (p :: ds, r')
        end
      else Some ([], s)
  | [] => Some ([], s)
  end.

Definition number_exp (s : jsstring) : option (jsstring * jsstring) :=
  match s with
  | e :: r =>
      if (e =? 101)%N || (e =? 69)%N then
        let (esign, r1) :=
          match r with
          | g :: r1 => if (g =? 43)%N || (g =? 45)%N then ([g], r1) else ([], r)
          | [] => ([], r)
          end in
        match digits r1 with
        | ([], _) => None
        | (ds, r2) => Some (e :: esign ++ ds, r2)
        end
      else Some ([], s)
  | [] => Some ([], s)
  end.

Definition parse_number (s : jsstring) : option (jsstring * jsstring) :=
  let (sign, s1) := number_sign s in
  match number_int s1 with
  | None => None
  | Some (int, s2) =>
      match number_frac s2 with
      | None => None
      | Some (fr, s3) =>
          match number_exp s3 with
          | None => None
          | Some (ex, s4) => Some (sign ++ int ++ fr ++ ex, s4)
          end
      end
  end.

Fixpoint strip_prefix (p s : jsstring) : option jsstring :=
  match p, s with
  | [], _ => Some s
  | a :: p', b :: s' => if (a =? b)%N then strip_prefix p' s' else None
  | _ :: _, [] => None
  end.

Definition parse_literal (word : jsstring) (v : json) (s : jsstring) : parsed json :=
  match strip_prefix word s with
  | Some rest => Parsed v rest
  | None => Malformed
  end.

Fixpoint parse_value (fuel : nat) (s : jsstring) : parsed json :=
  match fuel with
  | 0 => OutOfFuel
  | S fuel' =>
      match skip_ws s with
      | [] => Malformed
      | c :: rest =>
          if (c =? begin_object)%N then
            match skip_ws rest with
            | d :: rest' =>
                if (d =? end_object)%N then Parsed (JObject []) rest'
                else
                  match parse_members fuel' (d :: rest') with
                  | Parsed ms r => Parsed (JObject ms) r
                  | Malformed => Malformed
                  | OutOfFuel => OutOfFuel
                  end
            | [] => Malformed
            end
          else if (c =? begin_array)%N then
            match skip_ws rest with
            | d :: rest' =>
                if (d =? end_array)%N then Parsed (JArray []) rest'
                else
                  match parse_elements fuel' (d :: rest') with
                  | Parsed vs r => Parsed (JArray vs) r
                  | Malformed => Malformed
                  | OutOfFuel => OutOfFuel
                  end
            | [] => Malformed
            end
          else if (c =? quotation_mark)%N then
            match parse_characters rest with
            | Some (str, r) => Parsed (JString str) r
            | None => Malformed
            end
          (* the letters t, f and n: 116, 102, 110 *)
          else if (c =? 116)%N then parse_literal (js "true") (JBoolean true) (c :: rest)
          else if (c =? 102)%N then parse_literal (js "false") (JBoolean false) (c :: rest)
          else if (c =? 110)%N then parse_literal (js "null") JNull (c :: rest)
          else
            match parse_number (c :: rest) with
            | Some (lit, r) => Parsed (JNumber lit) r
            | None => Malformed
            end
      end
  end

with parse_elements (fuel : nat) (s : jsstring) : parsed (list json) :=
  match fuel with
  | 0 => OutOfFuel
  | S fuel' =>
      match parse_value fuel' s with
      | Parsed v r =>
          match skip_ws r with
          | c :: r' =>
              if (c =? value_separator)%N then
                match parse_elements fuel' r' with
                | Parsed vs r'' => Parsed (v :: vs) r''
                | Malformed => Malformed
                | OutOfFuel => OutOfFuel
                end
              else if (c =? end_array)%N then Parsed [v] r'
              else Malformed
          | [] => Malformed
          end
      | Malformed => Malformed
      | OutOfFuel => OutOfFuel
      end
  end

with parse_members (fuel : nat) (s : jsstring) : parsed (list (jsstring * json)) :=
  match fuel with
  | 0 => OutOfFuel
  | S fuel' =>
      match skip_ws s with
      | q :: r0 =>
          if negb (q =? quotation_mark)%N then Malformed
          else
            match parse_characters r0 with
            | None => Malformed
            | Some (key, r1) =>
                match skip_ws r1 with
                | c :: r2 =>
                    if negb (c =? name_separator)%N then Malformed
                    else
                      match parse_value fuel' r2 with
                      | Parsed v r3 =>
                          match skip_ws r3 with
                          | d :: r4 =>
                              if (d =? value_separator)%N then
                                match parse_members fuel' r4 with
                                | Parsed ms r5 => Parsed ((key, v) :: ms) r5
                                | Malformed => Malformed
                                | OutOfFuel => OutOfFuel
                                end
                              else if (d =? end_object)%N then Parsed [(key, v)] r4
                              else Malformed
                          | [] => Malformed
                          end
                      | Malformed => Malformed
                      | OutOfFuel => OutOfFuel
                      end
                | [] => Malformed
                end
            end
      | [] => Malformed
      end
  end.

Module JSON.

(** [JSON.stringify(todos)] for [todos : Todo[]]. *)
Definition stringify (todos : list Todo) : jsstring :=
  js "[" ++ join_comma (List.map stringify_Todo todos) ++ js "]".

(** [JSON.parse]: one value, white space around it, nothing else.  Each
    nested call of the parser is made on a text that has lost a
    character since the call two levels above, so twice the length is
    fuel enough. *)
Definition parse (s : jsstring) : result json :=
  match parse_value (2 * length s + 1) s with
  | Parsed v rest =>
      match skip_ws rest with
      | [] => Ok v
      | _ :: _ => Throw SyntaxError
      end
  | Malformed => Throw SyntaxError
  | OutOfFuel => Throw SyntaxError
  end.

End JSON.

(** The value that [JSON.parse] yields for the text of a [Todo[]]: how
    a list of todos lies in the JavaScript heap. *)
Definition js_of_Todo (t : Todo) : json :=
  JObject [(js "id", JString (id t)); (js "text", JString (text t));
           (js "completed", JBoolean (completed t));
           (js "createdAt", JString (createdAt t))].

Definition js_of_Todos (l : list Todo) : json := JArray (List.map js_of_Todo l).

(** The cast [as Todo[]] checks nothing.  The typed model follows a
    parsed value only when it is the value of some list of todos. *)
Definition as_Todo (v : json) : option Todo :=
  match v with
  | JObject [(k1, JString i); (k2, JString t); (k3, JBoolean c); (k4, JString d)] =>
      if str_eqb k1 (js "id") && str_eqb k2 (js "text")
         && str_eqb k3 (js "completed") && str_eqb k4 (js "createdAt")
      then Some (mkTodo i t c d) else None
  | _ => None
  end.

Definition as_Todos (v : json) : option (list Todo) :=
  match v with
  | JArray vs => mapM as_Todo vs
  | _ => None
  end.

(** ** Persistence: [src/App.tsx], lines 19 to 55 *)

(** The body of the [try] block of [loadTodos]; [!raw] holds of [null]
    and of the empty string. *)
Definition loadTodos_try (st : Storage) : result json :=
  raw ← localStorage.getItem STORAGE_TODOS st;
  match raw with
  | None | Some [] => Ok (JArray [])
  | Some raw => JSON.parse raw
  end.

Definition loadTodos (st : Storage) : json :=
  try_catch (loadTodos_try st) (fun err => JArray []).

Definition saveTodos (todos : list Todo) (st : Storage) : Storage :=
  try_catch (localStorage.setItem STORAGE_TODOS (JSON.stringify todos) st)
    (fun err => st).

Definition loadDarkMode_try (st : Storage) : result bool :=
  raw ← localStorage.getItem STORAGE_DARKMODE st;
  match raw with
  | None => Ok true
  | Some raw => Ok (str_eqb raw (js "true"))
  end.

Definition loadDarkMode (st : Storage) : bool :=
  try_catch (loadDarkMode_try st) (fun err => true).

(** [String(b)] for a boolean. *)
Definition String_boolean (b : bool) : jsstring :=
  if b then js "true" else js "false".

Definition saveDarkMode (darkMode : bool) (st : Storage) : Storage :=
  try_catch (localStorage.setItem STORAGE_DARKMODE (String_boolean darkMode) st)
    (fun err => st).

(** ** The component state and its handlers: lines 57 to 111 *)

Record State := mkState {
  todos : list Todo;
  darkMode : bool;
  filter : Filter;
  inputValue : jsstring
}.

#[global] Instance Filter_eq_dec : EqDecision Filter.
Proof. solve_decision. Defined.

(** The four [useState] initial values; [None] when the stored list is
    not the value of a [Todo[]]. *)
Definition initialState (st : Storage) : option State :=
  match as_Todos (loadTodos st) with
  | Some l => Some (mkState l (loadDarkMode st) All [])
  | None => None
  end.

Definition setTodos (update : list Todo -> list Todo) (s : State) : State :=
  mkState (update (todos s)) (darkMode s) (filter s) (inputValue s).

Definition setDarkMode (update : bool -> bool) (s : State) : State :=
  mkState (todos s) (update (darkMode s)) (filter s) (inputValue s).

Definition setFilter (f : Filter) (s : State) : State :=
  mkState (todos s) (darkMode s) f (inputValue s).

Definition setInputValue (v : jsstring) (s : State) : State :=
  mkState (todos s) (darkMode s) (filter s) v.

(** [uuid] is the result of [generateId()], [now] the one of
    [new Date().toISOString()]. *)
Definition addTodo (uuid now : jsstring) (s : State) : State :=
  let text := trim (inputValue s) in
  match text with
  | [] => s
  | _ :: _ =>
      let newTodo := mkTodo uuid text false now in
      setInputValue [] (setTodos (fun prev => prev ++ [newTodo]) s)
  end.

(** The object [{ ...todo, completed: !todo.completed }]. *)
Definition toggled (todo : Todo) : Todo :=
  mkTodo (id todo) (text todo) (negb (completed todo)) (createdAt todo).

Definition toggleTodo (id' : jsstring) (s : State) : State :=
  setTodos (fun prev =>
    List.map (fun todo => if str_eqb (id todo) id' then toggled todo else todo) prev) s.

Definition deleteTodo (id' : jsstring) (s : State) : State :=
  setTodos (fun prev => List.filter (fun todo => negb (str_eqb (id todo) id')) prev) s.

Definition clearCompleted (s : State) : State :=
  setTodos (fun prev => List.filter (fun todo => negb (completed todo)) prev) s.

Definition toggleDarkMode (s : State) : State := setDarkMode negb s.

Definition filteredTodos (s : State) : list Todo :=
  List.filter (fun todo =>
    if bool_decide (filter s = Active) then negb (completed todo)
    else if bool_decide (filter s = Completed) then completed todo
    else true) (todos s).

Definition activeCount (s : State) : nat :=
  length (List.filter (fun todo => negb (completed todo)) (todos s)).

Definition completedCount (s : State) : nat :=
  length (List.filter (fun todo => completed todo) (todos s)).

Definition emptyMessage (s : State) : jsstring :=
  if bool_decide (filter s = All) then js "No todos yet " ++ [0x2014%N] ++ js " add one above!"
  else if bool_decide (filter s = Active) then js "No active todos!"
  else js "No completed todos yet!".

(** The spec's [addTask(text)]: the text is typed into the input, then
    submitted. *)
Definition addTask (text uuid now : jsstring) (s : State) : State :=
  addTodo uuid now (setInputValue text s).

(** ** The rendered tree: lines 129 to 357

    Elements with their tag, the attributes that carry state or address
    the element ([data-testid], [data-darkmode], [aria-label], [value])
    and their children.  Class names, styles and icons are left out. *)

#[warnings="-register-all"]
Inductive Node :=
| Element (tag : string) (attrs : list (string * jsstring)) (children : list Node)
| TextNode (s : jsstring).

Fixpoint uint_text (d : Decimal.uint) : jsstring :=
  match d with
  | Decimal.Nil => []
  | Decimal.D0 d => 48%N :: uint_text d
  | Decimal.D1 d => 49%N :: uint_text d
  | Decimal.D2 d => 50%N :: uint_text d
  | Decimal.D3 d => 51%N :: uint_text d
  | Decimal.D4 d => 52%N :: uint_text d
  | Decimal.D5 d => 53%N :: uint_text d
  | Decimal.D6 d => 54%N :: uint_text d
  | Decimal.D7 d => 55%N :: uint_text d
  | Decimal.D8 d => 56%N :: uint_text d
  | Decimal.D9 d => 57%N :: uint_text d
  end.

(** [String(n)] for a count. *)
Definition String_number (n : nat) : jsstring := uint_text (Nat.to_uint n).

Definition testid (name : string) : string * jsstring :=
  ("data-testid"%string, js name).

Definition todo_item (todo : Todo) : Node :=
  Element "li" [testid "todo-item"]
    [ Element "button"
        [("aria-label"%string,
          if completed todo then js "Mark incomplete" else js "Mark complete");
         testid "todo-checkbox"] [];
      Element "span" [] [TextNode (text todo)];
      Element "button"
        [("aria-label"%string, js "Delete todo"); testid "delete-button"] [] ].

Definition filter_tab (f : Filter) : Node :=
  Element "button" [("data-testid"%string, js "filter-" ++ Filter_text f)]
    [TextNode (Filter_text f)].

(** The blocks of the tree, named as the comments of the source name
    them. *)
Definition Header (s : State) : Node :=
  Element "header" []
    [ Element "div" []
        [ Element "h1" [] [TextNode (js "DarkTodo")];
          Element "button"
            [("aria-label"%string,
              if darkMode s then js "Switch to light mode"
              else js "Switch to dark mode");
             testid "theme-toggle"] [] ] ].

Definition Input (s : State) : Node :=
  Element "div" []
    [ Element "div" []
        [ Element "input"
            [("type"%string, js "text"); ("value"%string, inputValue s);
             ("placeholder"%string, js "What needs to be done?");
             testid "todo-input"] [];
          Element "button" [testid "add-button"] [TextNode (js "Add")] ] ].

Definition FilterTabs : Node :=
  Element "div" [] (List.map filter_tab [All; Active; Completed]).

Definition TodoListCard (s : State) : Node :=
  Element "div" []
    [ if length (filteredTodos s) =? 0
      then Element "div" [testid "empty-state"]
             [ Element "div" [] [TextNode [0x2713%N]];
               Element "p" [] [TextNode (emptyMessage s)] ]
      else Element "ul" [testid "todo-list"]
             (List.map todo_item (filteredTodos s)) ].

Definition Footer (s : State) : Node :=
  Element "div" [testid "todo-footer"]
    ([ Element "span" [testid "active-count"]
         [ TextNode (String_number (activeCount s)); TextNode (js " ");
           TextNode (if activeCount s =? 1 then js "item" else js "items");
           TextNode (js " left") ] ]
     ++ (if 0 <? completedCount s
         then [Element "button" [testid "clear-completed"]
                 [TextNode (js "Clear Completed")]]
         else [])).

Definition App (s : State) : Node :=
  Element "div"
    [testid "app"; ("data-darkmode"%string, String_boolean (darkMode s))]
    [ Header s;
      Element "main" []
        ([Input s; FilterTabs; TodoListCard s]
         ++ (if 0 <? length (todos s) then [Footer s] else [])) ].

(** The queries of the test suite. *)
Definition has_testid (name : jsstring) (n : Node) : bool :=
  match n with
  | Element _ attrs _ =>
      existsb (fun a => String.eqb (fst a) "data-testid" && str_eqb (snd a) name) attrs
  | TextNode _ => false
  end.

Fixpoint getAllByTestId (name : jsstring) (n : Node) : list Node :=
  (if has_testid name n then [n] else [])
  ++ match n with
     | Element _ _ children => flat_map (getAllByTestId name) children
     | TextNode _ => []
     end.

Definition getAttribute (name : string) (n : Node) : option jsstring :=
  match n with
  | Element _ attrs _ =>
      snd <$> List.find (fun a => String.eqb (fst a) name) attrs
  | TextNode _ => None
  end.

Fixpoint textContent (n : Node) : jsstring :=
  match n with
  | Element _ _ children => flat_map textContent children
  | TextNode s => s
  end.

(** ** Events, effects and reloads

    The two [useEffect] calls write the list and the theme to the store
    after the first render and after every render in which the value
    they depend on is a new one.  Every [setTodos] call of a handler
    builds a new array. *)

Inductive Event :=
| Change (value : jsstring)
| Submit (uuid now : jsstring)
| Toggle (id' : jsstring)
| Delete (id' : jsstring)
| ClearCompleted
| ToggleTheme
| SetFilter (f : Filter).

Definition handle (e : Event) (s : State) : State :=
  match e with
  | Change v => setInputValue v s
  | Submit uuid now => addTodo uuid now s
  | Toggle i => toggleTodo i s
  | Delete i => deleteTodo i s
  | ClearCompleted => clearCompleted s
  | ToggleTheme => toggleDarkMode s
  | SetFilter f => setFilter f s
  end.

Definition run_effects (e : Event) (before after : State) (st : Storage) : Storage :=
  match e with
  | Submit _ _ =>
      match trim (inputValue before) with
      | [] => st
      | _ :: _ => saveTodos (todos after) st
      end
  | Toggle _ | Delete _ | ClearCompleted => saveTodos (todos after) st
  | ToggleTheme => saveDarkMode (darkMode after) st
  | Change _ | SetFilter _ => st
  end.

Definition step (e : Event) (w : State * Storage) : State * Storage :=
  let s' := handle e (fst w) in (s', run_effects e (fst w) s' (snd w)).

(** Loading the page: the state is read from the store, then both
    effects run. *)
Definition mount (st : Storage) : option (State * Storage) :=
  match initialState st with
  | Some s => Some (s, saveDarkMode (darkMode s) (saveTodos (todos s) st))
  | None => None
  end.

Definition run (events : list Event) (w : State * Storage) : State * Storage :=
  fold_left (fun w e => step e w) events w.

(** ** Sessions

    The store is written through when it holds the texts of the list
    and of the theme that the state holds, and takes every write. *)
Definition synced (w : State * Storage) : Prop :=
  denied (snd w) = false /\ quota (snd w) = None
  /\ items (snd w) !! STORAGE_TODOS = Some (JSON.stringify (todos (fst w)))
  /\ items (snd w) !! STORAGE_DARKMODE = Some (String_boolean (darkMode (fst w))).

(** What is assumed of [crypto.randomUUID()]: the id it returns is not
    the id of an item of the list. *)
Definition fresh (e : Event) (s : State) : Prop :=
  match e with
  | Submit uuid _ => ~ In uuid (List.map id (todos s))
  | _ => True
  end.

(** The states of the application: a first visit, with no list in the
    store, then events and page reloads. *)
Inductive reachable : State * Storage -> Prop :=
| reach_visit (st : Storage) (w : State * Storage) :
    items st !! STORAGE_TODOS = None -> mount st = Some w -> reachable w
| reach_step (e : Event) (w : State * Storage) :
    reachable w -> fresh e (fst w) -> reachable (step e w)
| reach_reload (w w' : State * Storage) :
    reachable w -> mount (snd w) = Some w' -> reachable w'.

(** The state of a first visit: nothing stored. *)
Definition freshState : State := mkState [] true All [].

(** ** Sample data *)

Definition sample_todos : list Todo :=
  [ mkTodo (js "a") (js "Buy milk") false (js "2024-01-01T00:00:00.000Z");
    mkTodo (js "b") (js "Walk dog") true (js "2024-01-02T00:00:00.000Z") ].

Definition sample_state : State := mkState sample_todos true All [].

Definition sample_storage : Storage := mkStorage false (Some 5000) ∅.

(** The start of each end-to-end test: the store is cleared and the
    page reloaded. *)
Definition cleared_storage : Storage := mkStorage false None ∅.

Definition first_visit : State * Storage :=
  (freshState, saveDarkMode true (saveTodos [] cleared_storage)).

(** Filling the input and pressing Enter. *)
Definition fill_and_enter (text uuid : jsstring) : list Event :=
  [Change text; Submit uuid (js "2024-01-01T00:00:00.000Z")].

(** What a test reads off the page. *)
Definition count (name : string) (w : State * Storage) : nat :=
  length (getAllByTestId (js name) (App (fst w))).

Definition texts (name : string) (w : State * Storage) : list jsstring :=
  List.map textContent (getAllByTestId (js name) (App (fst w))).

Definition darkmode_attribute (w : State * Storage) : list (option jsstring) :=
  List.map (getAttribute "data-darkmode") (getAllByTestId (js "app") (App (fst w))).

Definition sample_events : list Event :=
  [ Change (js "  Water plants "); Submit (js "c") (js "2024-01-03T00:00:00.000Z");
    Toggle (js "c"); SetFilter Active; ToggleTheme; Change (js "   ");
    Submit (js "d") (js "2024-01-04T00:00:00.000Z") ].

(** A store whose list entry is not JSON and whose theme entry is
    missing, and a store that refuses every access. *)
Definition corrupt_storage : Storage :=
  mkStorage false None {[ STORAGE_TODOS := js "[{oops" ]}.

Definition denied_storage : Storage := mkStorage true None ∅.

(** ** Definitions that follow the words of the specification *)

(** [tasks where (filter==all) or (filter==active and !completed) or
    (filter==completed and completed)]. *)
Definition filteredTasks_spec (f : Filter) (tasks : list Todo) : list Todo :=
  List.filter (fun t =>
    bool_decide (f = All)
    || (bool_decide (f = Active) && negb (completed t))
    || (bool_decide (f = Completed) && completed t)) tasks.

(** A call [addTask(text)] together with the id and the time stamp that
    the environment hands to it. *)
Definition AddCall : Type := jsstring * jsstring * jsstring.

Definition nonblank (c : AddCall) : bool :=
  match trim (fst (fst c)) with
  | [] => false
  | _ :: _ => true
  end.

Definition created (c : AddCall) : Todo :=
  mkTodo (snd (fst c)) (trim (fst (fst c))) false (snd c).

Definition addTasks (calls : list AddCall) (s : State) : State :=
  fold_left (fun s c => addTask (fst (fst c)) (snd (fst c)) (snd c) s) calls s.


(** ** The key handler of the input: [src/App.tsx], lines 202 to 204

    [key] is [e.key]; [uuid] and [now] are what [addTodo] would be
    handed if it ran. *)
Definition onKeyDown (key uuid now : jsstring) (s : State) : State :=
  if str_eqb key (js "Enter") then addTodo uuid now s else s.

(** A key press with the id and the time stamp of the moment. *)
Definition KeyPress : Type := jsstring * jsstring * jsstring.

Definition onKeyDowns (presses : list KeyPress) (s : State) : State :=
  fold_left (fun s p => onKeyDown (fst (fst p)) (snd (fst p)) (snd p) s) presses s.

(** ** The console: the [catch] blocks of lines 24 to 27, 33 to 35, 43 to
    46 and 52 to 54

    The functions of the persistence layer once more, this time with
    the calls [console.error(message, err)] that they make, in order. *)

Inductive ConsoleCall := console_error (message : jsstring) (err : exn).

Module Logged.

Definition Console : Type := list ConsoleCall.

Definition loadTodos (st : Storage) : json * Console :=
  match loadTodos_try st with
  | Ok v => (v, [])
  | Throw err =>
      (JArray [], [console_error (js "Failed to load todos from localStorage") err])
  end.

Definition saveTodos (todos : list Todo) (st : Storage) : Storage * Console :=
  match localStorage.setItem STORAGE_TODOS (JSON.stringify todos) st with
  | Ok st' => (st', [])
  | Throw err =>
      (st, [console_error (js "Failed to save todos to localStorage") err])
  end.

Definition loadDarkMode (st : Storage) : bool * Console :=
  match loadDarkMode_try st with
  | Ok b => (b, [])
  | Throw err =>
      (true, [console_error (js "Failed to load dark mode preference") err])
  end.

Definition saveDarkMode (darkMode : bool) (st : Storage) : Storage * Console :=
  match localStorage.setItem STORAGE_DARKMODE (String_boolean darkMode) st with
  | Ok st' => (st', [])
  | Throw err =>
      (st, [console_error (js "Failed to save dark mode preference") err])
  end.

(** The initialisers of [useState] run in the order of lines 58 and
    59. *)
Definition initialState (st : Storage) : option State * Console :=
  let (v, c1) := loadTodos st in
  let (d, c2) := loadDarkMode st in
  (match as_Todos v with
   | Some l => Some (mkState l d All [])
   | None => None
   end, c1 ++ c2).

Definition run_effects (e : Event) (before after : State) (st : Storage)
  : Storage * Console :=
  match e with
  | Submit _ _ =>
      match trim (inputValue before) with
      | [] => (st, [])
      | _ :: _ => saveTodos (todos after) st
      end
  | Toggle _ | Delete _ | ClearCompleted => saveTodos (todos after) st
  | ToggleTheme => saveDarkMode (darkMode after) st
  | Change _ | SetFilter _ => (st, [])
  end.

Definition step (e : Event) (w : State * Storage) : State * Storage * Console :=
  let s' := handle e (fst w) in
  let (st', c) := run_effects e (fst w) s' (snd w) in
  (s', st', c).

(** The effects of lines 63 to 69 run in the order in which they are
    declared. *)
Definition mount (st : Storage) : option (State * Storage) * Console :=
  let (init, c0) := initialState st in
  match init with
  | Some s =>
      let (st1, c1) := saveTodos (todos s) st in
      let (st2, c2) := saveDarkMode (darkMode s) st1 in
      (Some (s, st2), c0 ++ c1 ++ c2)
  | None => (None, c0)
  end.

Definition run (events : list Event) (w : State * Storage)
  : State * Storage * Console :=
  fold_left (fun wc e => let (w', c) := step e (fst wc) in (w', snd wc ++ c))
    events (w, []).

End Logged.

(** ** The console listener of the tests: [src/e2e/helpers.ts], lines 17
    to 30 *)

(** What a [console] event of the page carries: [msg.type()] and
    [msg.text()]. *)
Module ConsoleMessage.

Record t := mk { type : jsstring; text : jsstring }.

End ConsoleMessage.

(** [Array.prototype.join] on an array of strings. *)
Fixpoint join (separator : jsstring) (l : list jsstring) : jsstring :=
  match l with
  | [] => []
  | [a] => a
  | a :: rest => a ++ separator ++ join separator rest
  end.

Inductive Error := mkError (message : jsstring).

(** How a call of a function with no result ends. *)
Inductive completion := Returns | Throws (e : Error).

(** The listener: the array [errors] before and after one event. *)
Definition on_console (msg : ConsoleMessage.t) (errors : list jsstring) : list jsstring :=
  if str_eqb (ConsoleMessage.type msg) (js "error")
  then errors ++ [ConsoleMessage.text msg]
  else errors.

(** The function that [assertNoConsoleErrors] returns, called when the
    array it shares with the listener holds [errors]. *)
Definition checkErrors (errors : list jsstring) : completion :=
  if 0 <? length errors
  then Throws (mkError (js "Console errors detected:" ++ [10%N] ++ join [10%N] errors))
  else Returns.

(** [assertNoConsoleErrors(page)] followed, after the page has emitted
    the console events [emitted], by a call of the function it
    returned. *)
Definition assertNoConsoleErrors (emitted : list ConsoleMessage.t) : completion :=
  checkErrors (fold_left (fun errors msg => on_console msg errors) emitted []).

(** The event that a call of [console.error] raises on the page;
    [inspect] is the text that the browser prints for the error
    object. *)
Definition console_event (inspect : exn -> jsstring) (c : ConsoleCall)
  : ConsoleMessage.t :=
  match c with
  | console_error message err =>
      ConsoleMessage.mk (js "error") (message ++ js " " ++ inspect err)
  end.

(** * Properties *)

(** ** Strings and lists *)

Lemma str_eqb_eq (a b : jsstring) : str_eqb a b = true <-> a = b.
Proof. unfold str_eqb. apply bool_decide_eq_true. Qed.

Lemma str_eqb_neq (a b : jsstring) : str_eqb a b = false <-> a <> b.
Proof. unfold str_eqb. apply bool_decide_eq_false. Qed.

Lemma str_eqb_refl (a : jsstring) : str_eqb a a = true.
Proof. now apply str_eqb_eq. Qed.

Lemma lookup_map {A B} (f : A -> B) (l : list A) (n : nat) :
  List.map f l !! n = f <$> (l !! n).
Proof.
  revert n. induction l as [|a l IH]; intros [|n]; simpl; auto.
Qed.

Lemma filter_all {A} (p : A -> bool) (l : list A) :
  (forall a, In a l -> p a = true) -> List.filter p l = l.
Proof.
  induction l as [|a l IH]; simpl; intros H; [reflexivity|].
  rewrite (H a) by now left. f_equal. apply IH. intros b Hb. apply H. now right.
Qed.

Lemma filter_idem {A} (p : A -> bool) (l : list A) :
  List.filter p (List.filter p l) = List.filter p l.
Proof.
  apply filter_all. intros a Ha. now apply filter_In in Ha.
Qed.

Lemma filter_length_le {A} (p : A -> bool) (l : list A) :
  length (List.filter p l) <= length l.
Proof.
  induction l as [|a l IH]; simpl; [lia|]. destruct (p a); simpl; lia.
Qed.

Lemma filter_partition_length {A} (p : A -> bool) (l : list A) :
  length (List.filter (fun a => negb (p a)) l) + length (List.filter p l) = length l.
Proof.
  induction l as [|a l IH]; simpl; [reflexivity|].
  destruct (p a); simpl; lia.
Qed.

(** ** [toggleTodo] *)

Lemma toggled_toggled (todo : Todo) : toggled (toggled todo) = todo.
Proof. destruct todo as [i t c d]. unfold toggled. simpl. now rewrite negb_involutive. Qed.

Lemma toggleTodo_lookup (s : State) (i : jsstring) (n : nat) :
  todos (toggleTodo i s) !! n
  = (fun todo => if str_eqb (id todo) i then toggled todo else todo) <$> (todos s !! n).
Proof. unfold toggleTodo, setTodos. simpl. apply lookup_map. Qed.

Lemma toggleTodo_twice (s : State) (i : jsstring) :
  toggleTodo i (toggleTodo i s) = s.
Proof.
  destruct s as [l d f v]. unfold toggleTodo, setTodos. simpl. f_equal.
  rewrite List.map_map. rewrite <- (List.map_id l) at 2.
  apply List.map_ext. intros todo.
  destruct (str_eqb (id todo) i) eqn:E; simpl; rewrite E; [|reflexivity].
  apply toggled_toggled.
Qed.

Lemma toggleTodo_absent (s : State) (i : jsstring) :
  (forall todo, In todo (todos s) -> id todo <> i) -> toggleTodo i s = s.
Proof.
  intros H. destruct s as [l d f v]. unfold toggleTodo, setTodos. simpl in *. f_equal.
  rewrite <- (List.map_id l) at 2. apply List.map_ext_in. intros todo Hin.
  apply H in Hin. apply str_eqb_neq in Hin. now rewrite Hin.
Qed.

(** C4. [toggleTodo] flips [completed] on every item whose id matches,
    leaves a list without such an item as it is, and applied twice gives
    back each item its [completed] value, and indeed the whole state. *)
Theorem toggleTodo_involution (s : State) (i : jsstring) :
  (forall n todo, todos s !! n = Some todo -> id todo = i ->
     completed <$> (todos (toggleTodo i s) !! n) = Some (negb (completed todo)))
  /\ ((forall todo, In todo (todos s) -> id todo <> i) -> toggleTodo i s = s)
  /\ (forall n todo, todos s !! n = Some todo ->
        completed <$> (todos (toggleTodo i (toggleTodo i s)) !! n)
        = Some (completed todo))
  /\ toggleTodo i (toggleTodo i s) = s.
Proof.
  repeat split.
  - intros n todo Hn Hi. rewrite toggleTodo_lookup, Hn. simpl.
    apply str_eqb_eq in Hi. now rewrite Hi.
  - apply toggleTodo_absent.
  - intros n todo Hn. rewrite toggleTodo_twice, Hn. reflexivity.
  - apply toggleTodo_twice.
Qed.

Lemma toggleTodo_involution_witness :
  completed <$> (todos (toggleTodo (js "b") sample_state) !! 1) = Some false
  /\ toggleTodo (js "c") sample_state = sample_state
  /\ completed <$> (todos (toggleTodo (js "b") (toggleTodo (js "b") sample_state)) !! 1)
     = Some true.
Proof.
  destruct (toggleTodo_involution sample_state (js "b")) as (H1 & _ & H3 & _).
  destruct (toggleTodo_involution sample_state (js "c")) as (_ & H2 & _).
  split; [|split].
  - apply (H1 1 (mkTodo (js "b") (js "Walk dog") true (js "2024-01-02T00:00:00.000Z")));
      reflexivity.
  - apply H2. intros todo [<-|[<-|[]]]; vm_compute; discriminate.
  - apply (H3 1 (mkTodo (js "b") (js "Walk dog") true (js "2024-01-02T00:00:00.000Z"))).
    reflexivity.
Defined.

Lemma toggleTodo_ids (i : jsstring) (s : State) :
  List.map id (todos (toggleTodo i s)) = List.map id (todos s).
Proof.
  unfold toggleTodo, setTodos. cbn [todos]. rewrite List.map_map.
  apply List.map_ext. intros todo. now destruct (str_eqb (id todo) i).
Qed.

(** C10. [toggleTodo] keeps the length of the list and, position by
    position, the [id], [text] and [createdAt] of every item; an item
    with another id is the same item afterwards; the rest of the state
    is not touched. *)
Theorem toggleTodo_frame (s : State) (i : jsstring) :
  length (todos (toggleTodo i s)) = length (todos s)
  /\ List.map id (todos (toggleTodo i s)) = List.map id (todos s)
  /\ (forall n todo, todos s !! n = Some todo ->
        exists todo', todos (toggleTodo i s) !! n = Some todo'
          /\ id todo' = id todo /\ text todo' = text todo
          /\ createdAt todo' = createdAt todo
          /\ (id todo = i -> completed todo' = negb (completed todo))
          /\ (id todo <> i -> todo' = todo))
  /\ (forall n, todos s !! n = None -> todos (toggleTodo i s) !! n = None)
  /\ darkMode (toggleTodo i s) = darkMode s
  /\ filter (toggleTodo i s) = filter s
  /\ inputValue (toggleTodo i s) = inputValue s.
Proof.
  split; [|split; [|split; [|split]]].
  - unfold toggleTodo, setTodos. simpl. apply List.length_map.
  - apply toggleTodo_ids.
  - intros n todo Hn. rewrite toggleTodo_lookup, Hn. simpl.
    destruct (str_eqb (id todo) i) eqn:E.
    + exists (toggled todo). apply str_eqb_eq in E. repeat split; auto. congruence.
    + exists todo. apply str_eqb_neq in E. repeat split; auto. congruence.
  - intros n Hn. now rewrite toggleTodo_lookup, Hn.
  - repeat split.
Qed.

Lemma toggleTodo_frame_witness :
  exists todo', todos (toggleTodo (js "b") sample_state) !! 0 = Some todo'
    /\ todo' = mkTodo (js "a") (js "Buy milk") false (js "2024-01-01T00:00:00.000Z").
Proof.
  destruct (toggleTodo_frame sample_state (js "b")) as (_ & _ & H & _).
  destruct (H 0 (mkTodo (js "a") (js "Buy milk") false (js "2024-01-01T00:00:00.000Z")))
    as (todo' & H1 & _ & _ & _ & _ & H2); [reflexivity|].
  exists todo'. split; [exact H1|]. apply H2. vm_compute. discriminate.
Defined.


(** ** [deleteTodo] *)

Lemma deleteTodo_absent (s : State) (i : jsstring) :
  (forall todo, In todo (todos s) -> id todo <> i) -> deleteTodo i s = s.
Proof.
  intros H. destruct s as [l d f v]. unfold deleteTodo, setTodos. simpl in *. f_equal.
  apply filter_all. intros todo Hin. apply H in Hin.
  apply str_eqb_neq in Hin. now rewrite Hin.
Qed.

Lemma filter_unique_id (i : jsstring) (l1 l2 : list Todo) (t : Todo) :
  NoDup (List.map id (l1 ++ t :: l2)) -> id t = i ->
  List.filter (fun todo => negb (str_eqb (id todo) i)) (l1 ++ t :: l2) = l1 ++ l2.
Proof.
  intros Hnd Hi. rewrite List.map_app in Hnd. simpl in Hnd.
  apply NoDup_app in Hnd. destruct Hnd as (_ & H1 & Hnd).
  apply NoDup_cons in Hnd. destruct Hnd as (H2 & _).
  rewrite List.filter_app. simpl.
  replace (str_eqb (id t) i) with true by (symmetry; now apply str_eqb_eq).
  simpl. f_equal; apply filter_all; intros a Ha;
    apply negb_true_iff, str_eqb_neq; intros E.
  - apply (H1 (id a)).
    + apply list_elem_of_In, in_map. exact Ha.
    + rewrite E, <- Hi. left.
  - apply H2. rewrite Hi, <- E. apply list_elem_of_In, in_map. exact Ha.
Qed.

Lemma deleteTodo_present (s : State) (i : jsstring) (todo : Todo) :
  NoDup (List.map id (todos s)) -> In todo (todos s) -> id todo = i ->
  exists l1 l2, todos s = l1 ++ todo :: l2
    /\ todos (deleteTodo i s) = l1 ++ l2
    /\ S (length (todos (deleteTodo i s))) = length (todos s).
Proof.
  intros Hnd Hin Hi. destruct (in_split _ _ Hin) as (l1 & l2 & E).
  exists l1, l2. split; [exact E|].
  assert (E2 : todos (deleteTodo i s) = l1 ++ l2).
  { unfold deleteTodo, setTodos. simpl. rewrite E. apply filter_unique_id; [|exact Hi].
    now rewrite <- E. }
  split; [exact E2|]. rewrite E2, E, !length_app. simpl. lia.
Qed.

Lemma deleteTodo_length (s : State) (i : jsstring) :
  NoDup (List.map id (todos s)) ->
  length (todos s) <= S (length (todos (deleteTodo i s))).
Proof.
  intros Hnd.
  destruct (List.existsb (fun todo => str_eqb (id todo) i) (todos s)) eqn:Ex.
  - apply existsb_exists in Ex. destruct Ex as (todo & Hin & Hi).
    apply str_eqb_eq in Hi.
    destruct (deleteTodo_present s i todo Hnd Hin Hi) as (_ & _ & _ & _ & Hlen). lia.
  - rewrite deleteTodo_absent; [lia|]. intros todo Hin Hi.
    assert (Ht : List.existsb (fun todo => str_eqb (id todo) i) (todos s) = true).
    { apply existsb_exists. exists todo. split; [exact Hin|]. now apply str_eqb_eq. }
    congruence.
Qed.

(** C5. On a list whose ids are pairwise distinct, as the data model has
    them, [deleteTodo] takes out the one item with the given id and
    nothing else, so the length drops by one; without such an item the
    state stays as it is; the length never drops by more than one.  In
    any list the items kept are those with another id. *)
Theorem deleteTodo_removes_one (s : State) (i : jsstring) :
  NoDup (List.map id (todos s)) ->
  (forall todo, In todo (todos s) -> id todo = i ->
     exists l1 l2, todos s = l1 ++ todo :: l2
       /\ todos (deleteTodo i s) = l1 ++ l2
       /\ S (length (todos (deleteTodo i s))) = length (todos s))
  /\ ((forall todo, In todo (todos s) -> id todo <> i) -> deleteTodo i s = s)
  /\ length (todos s) <= S (length (todos (deleteTodo i s)))
  /\ length (todos (deleteTodo i s)) <= length (todos s)
  /\ (forall todo, In todo (todos (deleteTodo i s))
        <-> In todo (todos s) /\ id todo <> i).
Proof.
  intros Hnd.
  split; [intros todo; now apply deleteTodo_present|].
  split; [apply deleteTodo_absent|].
  split; [now apply deleteTodo_length|].
  split; [unfold deleteTodo, setTodos; simpl; apply filter_length_le|].
  intros todo. unfold deleteTodo, setTodos. cbn [todos].
  rewrite filter_In, negb_true_iff, str_eqb_neq. reflexivity.
Qed.

Lemma deleteTodo_removes_one_witness :
  todos (deleteTodo (js "a") sample_state)
  = [mkTodo (js "b") (js "Walk dog") true (js "2024-01-02T00:00:00.000Z")]
  /\ length (todos sample_state) <= S (length (todos (deleteTodo (js "a") sample_state))).
Proof.
  assert (Hnd : NoDup (List.map id (todos sample_state))).
  { apply (bool_decide_unpack (NoDup (List.map id (todos sample_state)))).
    vm_compute. exact I. }
  destruct (deleteTodo_removes_one sample_state (js "a") Hnd) as (_ & _ & H & _).
  split; [reflexivity | exact H].
Defined.

(** ** [clearCompleted] *)

Lemma filter_sublist {A} (p : A -> bool) (l : list A) : sublist (List.filter p l) l.
Proof.
  induction l as [|a l IH]; simpl; [constructor|].
  destruct (p a); now constructor.
Qed.

(** C6. [clearCompleted] keeps exactly the items that are not completed,
    in their order, and a second call changes nothing. *)
Theorem clearCompleted_idempotent (s : State) :
  (forall todo, In todo (todos (clearCompleted s))
     <-> In todo (todos s) /\ completed todo = false)
  /\ sublist (todos (clearCompleted s)) (todos s)
  /\ length (todos (clearCompleted s)) = activeCount s
  /\ clearCompleted (clearCompleted s) = clearCompleted s.
Proof.
  split; [|split; [|split]].
  - intros todo. unfold clearCompleted, setTodos. simpl.
    rewrite filter_In, negb_true_iff. reflexivity.
  - apply filter_sublist.
  - reflexivity.
  - unfold clearCompleted, setTodos. simpl. f_equal. apply filter_idem.
Qed.

(** ** Derived values *)

Lemma filteredTodos_spec (s : State) :
  filteredTodos s = filteredTasks_spec (filter s) (todos s).
Proof.
  unfold filteredTodos, filteredTasks_spec. apply filter_ext. intros todo.
  destruct (filter s); simpl; destruct (completed todo); reflexivity.
Qed.

Lemma trim_Buy_milk : trim (js "Buy milk") = js "Buy milk".
Proof. vm_compute. reflexivity. Qed.

Lemma addTask_Buy_milk (uuid now : jsstring) :
  addTask (js "Buy milk") uuid now freshState
  = mkState [mkTodo uuid (js "Buy milk") false now] true All [].
Proof.
  unfold addTask, addTodo, setInputValue. cbn [inputValue].
  rewrite trim_Buy_milk. reflexivity.
Qed.

(** C7. [filteredTodos] is the list that the specification describes: all
    items, the items not completed, or the completed ones, in the order
    of the list.  After adding "Buy milk" to an empty list the view has
    one row under [All] and none under [Completed]; after toggling that
    item, none under [Active] and one under [Completed]. *)
Theorem filteredTodos_selects (s : State) :
  filteredTodos s = filteredTasks_spec (filter s) (todos s)
  /\ filteredTodos (setFilter All s) = todos s
  /\ filteredTodos (setFilter Active s)
     = List.filter (fun todo => negb (completed todo)) (todos s)
  /\ filteredTodos (setFilter Completed s)
     = List.filter (fun todo => completed todo) (todos s)
  /\ sublist (filteredTodos s) (todos s)
  /\ (forall uuid now : jsstring,
        let s1 := addTask (js "Buy milk") uuid now freshState in
        let s2 := toggleTodo uuid s1 in
        filteredTodos (setFilter All s1) = [mkTodo uuid (js "Buy milk") false now]
        /\ length (filteredTodos (setFilter Completed s1)) = 0
        /\ length (filteredTodos (setFilter Active s2)) = 0
        /\ filteredTodos (setFilter Completed s2)
           = [mkTodo uuid (js "Buy milk") true now]).
Proof.
  split; [apply filteredTodos_spec|].
  split; [unfold filteredTodos; simpl; apply filter_all; reflexivity|].
  split; [reflexivity|]. split; [reflexivity|].
  split; [apply filter_sublist|].
  intros uuid now s1 s2. subst s2 s1. rewrite addTask_Buy_milk.
  unfold toggleTodo, setTodos, filteredTodos, setFilter. simpl.
  rewrite str_eqb_refl. simpl. repeat split.
Qed.

(** C8. The two counts add up to the length of the list, in every state,
    so in every state that a session reaches from any store. *)
Theorem counts_partition (s : State) :
  activeCount s + completedCount s = length (todos s)
  /\ (forall (st : Storage) (events : list Event),
        match mount st with
        | Some w =>
            activeCount (fst (run events w)) + completedCount (fst (run events w))
            = length (todos (fst (run events w)))
        | None => True
        end).
Proof.
  assert (H : forall s, activeCount s + completedCount s = length (todos s)).
  { intros s'. unfold activeCount, completedCount. apply filter_partition_length. }
  split; [apply H|]. intros st events. destruct (mount st); [apply H | exact I].
Qed.


(** ** [trim] and [addTodo] *)

Lemma trimStart_spec (s : jsstring) :
  exists pre, s = pre ++ trimStart s
    /\ forallb is_whitespace pre = true
    /\ (forall c r, trimStart s = c :: r -> is_whitespace c = false).
Proof.
  induction s as [|c s IH]; simpl.
  - exists []. repeat split. intros c r H. discriminate.
  - destruct (is_whitespace c) eqn:E.
    + destruct IH as (pre & H1 & H2 & H3). exists (c :: pre). simpl.
      rewrite E, H2. repeat split; [congruence | exact H3].
    + exists []. repeat split. intros c' r [= <- _]. exact E.
Qed.

Lemma trimStart_snoc (l : jsstring) (c : N) :
  is_whitespace c = false -> exists l', trimStart (l ++ [c]) = l' ++ [c].
Proof.
  intros E. induction l as [|a l IH]; simpl.
  - rewrite E. now exists [].
  - destruct (is_whitespace a); [exact IH | now exists (a :: l)].
Qed.

Lemma trimEnd_spec (s : jsstring) :
  exists post, s = trimEnd s ++ post
    /\ forallb is_whitespace post = true
    /\ (forall r c, trimEnd s = r ++ [c] -> is_whitespace c = false).
Proof.
  unfold trimEnd. destruct (trimStart_spec (rev s)) as (pre & H1 & H2 & H3).
  exists (rev pre). split; [|split].
  - rewrite <- rev_app_distr, <- H1. symmetry. apply rev_involutive.
  - rewrite forallb_forall in *. intros x Hx. apply H2. now apply in_rev.
  - intros r c E. apply (f_equal (@rev N)) in E.
    rewrite rev_involutive, rev_app_distr in E. simpl in E. eapply H3, E.
Qed.

Lemma trimEnd_head (c : N) (r : jsstring) :
  is_whitespace c = false -> exists r', trimEnd (c :: r) = c :: r'.
Proof.
  intros E. unfold trimEnd. simpl.
  destruct (trimStart_snoc (rev r) c E) as (l' & ->).
  rewrite rev_app_distr. simpl. now exists (rev l').
Qed.

Lemma trim_spec (s : jsstring) :
  exists pre post, s = pre ++ trim s ++ post
    /\ forallb is_whitespace pre = true
    /\ forallb is_whitespace post = true
    /\ (forall c r, trim s = c :: r -> is_whitespace c = false)
    /\ (forall r c, trim s = r ++ [c] -> is_whitespace c = false).
Proof.
  unfold trim. destruct (trimStart_spec s) as (pre & H1 & H2 & H3).
  destruct (trimEnd_spec (trimStart s)) as (post & K1 & K2 & K3).
  exists pre, post. split; [|split; [|split; [|split]]]; auto.
  - now rewrite <- K1.
  - intros c r E. destruct (trimStart s) as [|c0 r0] eqn:Es.
    + discriminate.
    + pose proof (H3 c0 r0 eq_refl) as Hc0.
      destruct (trimEnd_head c0 r0 Hc0) as (r' & Er'). congruence.
Qed.

Lemma addTask_todos (text uuid now : jsstring) (s : State) :
  todos (addTask text uuid now s)
  = if nonblank (text, uuid, now) then todos s ++ [created (text, uuid, now)]
    else todos s.
Proof.
  unfold addTask, addTodo, nonblank, created. simpl.
  destruct (trim text); reflexivity.
Qed.

Lemma addTasks_todos (calls : list AddCall) (s : State) :
  todos (addTasks calls s)
  = todos s ++ List.map created (List.filter nonblank calls).
Proof.
  revert s. induction calls as [|[[text uuid] now] calls IH]; intros s.
  - simpl. now rewrite app_nil_r.
  - unfold addTasks in *. simpl fold_left. rewrite IH, addTask_todos.
    cbn [List.filter]. destruct (nonblank (text, uuid, now)); [|reflexivity].
    now rewrite <- app_assoc.
Qed.

(** C1. [addTask] stores the trimmed text.  A call whose trimmed text is
    empty leaves the list as it is; any other call appends one item, not
    completed, at the end.  After a sequence of calls the list is the
    old list followed by one item per non-blank call, in call order, so
    its length has grown by the number of non-blank calls. *)
Theorem addTask_appends (calls : list AddCall) (s : State) :
  (forall text uuid now,
     todos (addTask text uuid now s)
     = if nonblank (text, uuid, now)
       then todos s ++ [mkTodo uuid (trim text) false now]
       else todos s)
  /\ (forall uuid now,
        todos (addTask (js "") uuid now s) = todos s
        /\ todos (addTask (js "   ") uuid now s) = todos s)
  /\ todos (addTasks calls s)
     = todos s ++ List.map created (List.filter nonblank calls)
  /\ length (todos (addTasks calls s))
     = length (todos s) + length (List.filter nonblank calls)
  /\ length (todos (addTasks calls freshState)) = length (List.filter nonblank calls)
  /\ (forall text, exists pre post,
        text = pre ++ trim text ++ post
        /\ forallb is_whitespace pre = true
        /\ forallb is_whitespace post = true
        /\ (forall c r, trim text = c :: r -> is_whitespace c = false)
        /\ (forall r c, trim text = r ++ [c] -> is_whitespace c = false)).
Proof.
  split; [intros; apply addTask_todos|].
  split; [intros; split; rewrite addTask_todos; reflexivity|].
  split; [apply addTasks_todos|].
  split; [rewrite addTasks_todos, length_app, length_map; reflexivity|].
  split; [rewrite addTasks_todos, length_app, length_map; reflexivity|].
  apply trim_spec.
Qed.


(** ** The rendered tree *)

Lemma getAllByTestId_Element (name : jsstring) tag attrs children :
  getAllByTestId name (Element tag attrs children)
  = (if has_testid name (Element tag attrs children)
     then [Element tag attrs children] else [])
    ++ flat_map (getAllByTestId name) children.
Proof. reflexivity. Qed.

Lemma todo_item_query (name : jsstring) (t : Todo) :
  name <> js "todo-item" -> name <> js "todo-checkbox" -> name <> js "delete-button" ->
  getAllByTestId name (todo_item t) = [].
Proof.
  intros H1 H2 H3. unfold todo_item. rewrite !getAllByTestId_Element.
  cbn [flat_map getAllByTestId has_testid existsb testid fst snd].
  cbn [String.eqb Ascii.eqb Bool.eqb andb orb].
  assert (E : forall a, name <> a -> str_eqb a name = false).
  { intros a Ha. apply str_eqb_neq. congruence. }
  rewrite !E by assumption. reflexivity.
Qed.

Lemma todo_items_query (name : jsstring) (l : list Todo) :
  name <> js "todo-item" -> name <> js "todo-checkbox" -> name <> js "delete-button" ->
  flat_map (getAllByTestId name) (List.map todo_item l) = [].
Proof.
  intros H1 H2 H3. induction l as [|t l IH]; [reflexivity|].
  cbn [List.map flat_map]. now rewrite IH, todo_item_query.
Qed.

Lemma todo_items_rows (l : list Todo) :
  flat_map (getAllByTestId (js "todo-item")) (List.map todo_item l)
  = List.map todo_item l.
Proof.
  induction l as [|t l IH]; [reflexivity|].
  cbn [List.map flat_map]. rewrite IH. reflexivity.
Qed.

Lemma length_pos_iff {A} (l : list A) : (0 <? length l) = true <-> l <> [].
Proof.
  destruct l; simpl; split; intros H; try discriminate; try reflexivity.
  now contradiction H.
Qed.

Lemma filter_nonempty_iff {A} (p : A -> bool) (l : list A) :
  (0 <? length (List.filter p l)) = true <-> exists a, In a l /\ p a = true.
Proof.
  rewrite length_pos_iff. split.
  - intros H. destruct (List.filter p l) as [|a r] eqn:E; [now contradiction H|].
    exists a. apply filter_In. rewrite E. now left.
  - intros (a & Ha) E. apply filter_In in Ha. rewrite E in Ha. destruct Ha.
Qed.

(** A query is settled by a test on a condition of the source that is
    either [true] or [false]. *)
Ltac by_condition c :=
  destruct c;
  (split; [intros _; reflexivity | intros _ E; discriminate E])
  || (split; [intros H; now destruct H | intros H; discriminate H]).

Section View.

Context (s : State).

Lemma App_query (name : jsstring) :
  getAllByTestId name (App s)
  = (if has_testid name (App s) then [App s] else [])
    ++ getAllByTestId name (Header s) ++ getAllByTestId name (Input s)
    ++ getAllByTestId name FilterTabs ++ getAllByTestId name (TodoListCard s)
    ++ (if 0 <? length (todos s) then getAllByTestId name (Footer s) else []).
Proof.
  unfold App. rewrite getAllByTestId_Element. f_equal.
  cbn [flat_map]. rewrite getAllByTestId_Element.
  cbn [has_testid existsb app flat_map]. rewrite !app_nil_r.
  do 3 f_equal. destruct (0 <? length (todos s)); cbn [flat_map]; now rewrite ?app_nil_r.
Qed.

Lemma App_query_inner (name : jsstring) :
  has_testid name (App s) = false ->
  getAllByTestId name (Header s) = [] ->
  getAllByTestId name (Input s) = [] ->
  getAllByTestId name FilterTabs = [] ->
  getAllByTestId name (App s)
  = getAllByTestId name (TodoListCard s)
    ++ (if 0 <? length (todos s) then getAllByTestId name (Footer s) else []).
Proof. intros H1 H2 H3 H4. now rewrite App_query, H1, H2, H3, H4. Qed.

Lemma TodoListCard_query (name : jsstring) :
  name <> js "empty-state" -> name <> js "todo-list" ->
  name <> js "todo-item" -> name <> js "todo-checkbox" -> name <> js "delete-button" ->
  getAllByTestId name (TodoListCard s) = [].
Proof.
  intros H1 H2 H3 H4 H5. unfold TodoListCard.
  assert (E : forall a, name <> a -> str_eqb a name = false).
  { intros a Ha. apply str_eqb_neq. congruence. }
  rewrite getAllByTestId_Element. cbn [has_testid existsb flat_map app].
  destruct (length (filteredTodos s) =? 0).
  - rewrite !getAllByTestId_Element.
    cbn [flat_map getAllByTestId has_testid existsb testid fst snd].
    cbn [String.eqb Ascii.eqb Bool.eqb andb orb]. now rewrite E.
  - rewrite getAllByTestId_Element, todo_items_query by assumption.
    cbn [has_testid existsb testid fst snd].
    cbn [String.eqb Ascii.eqb Bool.eqb andb orb]. now rewrite E.
Qed.

Lemma TodoListCard_rows :
  getAllByTestId (js "todo-item") (TodoListCard s) = List.map todo_item (filteredTodos s).
Proof.
  unfold TodoListCard. rewrite getAllByTestId_Element.
  cbn [has_testid existsb flat_map app].
  destruct (length (filteredTodos s) =? 0) eqn:E.
  - apply Nat.eqb_eq, length_zero_iff_nil in E. now rewrite E.
  - rewrite getAllByTestId_Element, todo_items_rows. now rewrite app_nil_r.
Qed.

Lemma TodoListCard_empty_state :
  getAllByTestId (js "empty-state") (TodoListCard s)
  = if length (filteredTodos s) =? 0
    then [Element "div" [testid "empty-state"]
            [ Element "div" [] [TextNode [0x2713%N]];
              Element "p" [] [TextNode (emptyMessage s)] ]]
    else [].
Proof.
  unfold TodoListCard. rewrite getAllByTestId_Element.
  cbn [has_testid existsb flat_map app].
  destruct (length (filteredTodos s) =? 0) eqn:E; [reflexivity|].
  now rewrite getAllByTestId_Element, todo_items_query by (vm_compute; discriminate).
Qed.

Lemma Footer_query (name : jsstring) :
  getAllByTestId name (Footer s)
  = (if str_eqb (js "todo-footer") name then [Footer s] else [])
    ++ (if str_eqb (js "active-count") name
        then [Element "span" [testid "active-count"]
                [ TextNode (String_number (activeCount s)); TextNode (js " ");
                  TextNode (if activeCount s =? 1 then js "item" else js "items");
                  TextNode (js " left") ]]
        else [])
    ++ (if str_eqb (js "clear-completed") name && (0 <? completedCount s)
        then [Element "button" [testid "clear-completed"]
                [TextNode (js "Clear Completed")]]
        else []).
Proof.
  unfold Footer. rewrite getAllByTestId_Element.
  cbn [has_testid existsb testid fst snd String.eqb Ascii.eqb Bool.eqb andb].
  rewrite orb_false_r. f_equal.
  destruct (0 <? completedCount s);
    cbn [app flat_map getAllByTestId has_testid existsb testid fst snd
         String.eqb Ascii.eqb Bool.eqb andb];
    rewrite ?orb_false_r, ?andb_false_r, ?andb_true_r, ?app_nil_r;
    destruct (str_eqb (js "active-count") name), (str_eqb (js "clear-completed") name);
    reflexivity.
Qed.

Lemma footer_query :
  getAllByTestId (js "todo-footer") (App s)
  = (if 0 <? length (todos s) then [Footer s] else []).
Proof.
  rewrite App_query, TodoListCard_query by (vm_compute; discriminate).
  destruct (0 <? length (todos s)); [rewrite Footer_query|]; reflexivity.
Qed.

Lemma clear_completed_query :
  getAllByTestId (js "clear-completed") (App s)
  = if 0 <? length (todos s) then getAllByTestId (js "clear-completed") (Footer s)
    else [].
Proof.
  rewrite App_query, TodoListCard_query by (vm_compute; discriminate). reflexivity.
Qed.

Lemma clear_completed_shown :
  getAllByTestId (js "clear-completed") (Footer s) <> []
  <-> exists todo, In todo (todos s) /\ completed todo = true.
Proof.
  rewrite Footer_query. unfold completedCount.
  rewrite <- (filter_nonempty_iff (fun todo => completed todo)).
  change (str_eqb (js "todo-footer") (js "clear-completed")) with false.
  change (str_eqb (js "active-count") (js "clear-completed")) with false.
  change (str_eqb (js "clear-completed") (js "clear-completed")) with true.
  cbn [andb app].
  by_condition (0 <? length (List.filter (fun todo => completed todo) (todos s))).
Qed.

Lemma footer_shown_iff :
  getAllByTestId (js "todo-footer") (App s) <> [] <-> todos s <> [].
Proof.
  rewrite footer_query, <- (length_pos_iff (todos s)).
  by_condition (0 <? length (todos s)).
Qed.

End View.

(** C9. The footer is in the tree exactly when the list of todos, not
    the filtered one, is non-empty, whatever the filter; the clear
    button is in the tree exactly when some item is completed, and then
    it is a child of the footer. *)
Theorem footer_shown (s : State) :
  (getAllByTestId (js "todo-footer") (App s) <> [] <-> todos s <> [])
  /\ getAllByTestId (js "todo-footer") (App s)
     = (if 0 <? length (todos s) then [Footer s] else [])
  /\ (forall f, getAllByTestId (js "todo-footer") (App (setFilter f s)) <> []
                <-> todos s <> [])
  /\ (getAllByTestId (js "clear-completed") (App s) <> []
      <-> exists todo, In todo (todos s) /\ completed todo = true)
  /\ getAllByTestId (js "clear-completed") (App s)
     = flat_map (getAllByTestId (js "clear-completed"))
         (getAllByTestId (js "todo-footer") (App s))
  /\ (getAllByTestId (js "clear-completed") (Footer s) <> []
      <-> exists todo, In todo (todos s) /\ completed todo = true).
Proof.
  split; [apply footer_shown_iff|]. split; [apply footer_query|].
  split; [intros f; apply (footer_shown_iff (setFilter f s))|].
  split; [|split].
  - rewrite clear_completed_query.
    destruct (0 <? length (todos s)) eqn:E; [apply clear_completed_shown|].
    split; [intros H; now destruct H|].
    intros (todo & Hin & _). destruct (todos s); [destruct Hin | discriminate].
  - rewrite clear_completed_query, footer_query.
    destruct (0 <? length (todos s)); cbn [flat_map]; now rewrite ?app_nil_r.
  - apply clear_completed_shown.
Qed.

Lemma footer_shown_witness :
  getAllByTestId (js "clear-completed") (App sample_state) <> []
  /\ filteredTodos (setFilter Completed (deleteTodo (js "b") sample_state)) = []
  /\ getAllByTestId (js "todo-footer")
       (App (setFilter Completed (deleteTodo (js "b") sample_state))) <> [].
Proof.
  destruct (footer_shown sample_state) as (_ & _ & _ & H4 & _).
  destruct (footer_shown (deleteTodo (js "b") sample_state)) as (_ & _ & H3 & _).
  split; [|split].
  - apply H4.
    exists (mkTodo (js "b") (js "Walk dog") true (js "2024-01-02T00:00:00.000Z")).
    split; [right; left|]; reflexivity.
  - reflexivity.
  - apply H3. discriminate.
Defined.

(** X5. The list card shows one row per item of the filtered list, in order,
    or else the empty-state block with the message of the filter; the
    counter of the footer reads the number of active items. *)
Theorem view_rows (s : State) :
  getAllByTestId (js "todo-item") (App s) = List.map todo_item (filteredTodos s)
  /\ List.map textContent (getAllByTestId (js "empty-state") (App s))
     = (if length (filteredTodos s) =? 0 then [[0x2713%N] ++ emptyMessage s] else [])
  /\ List.map textContent (getAllByTestId (js "active-count") (App s))
     = (if 0 <? length (todos s)
        then [String_number (activeCount s) ++ js " "
              ++ (if activeCount s =? 1 then js "item" else js "items")
              ++ js " left"]
        else []).
Proof.
  split; [|split].
  - rewrite App_query_inner, TodoListCard_rows, Footer_query by reflexivity.
    destruct (0 <? length (todos s)); now rewrite app_nil_r.
  - rewrite App_query_inner, TodoListCard_empty_state, Footer_query by reflexivity.
    destruct (length (filteredTodos s) =? 0), (0 <? length (todos s));
      cbn [app List.map textContent flat_map]; now rewrite ?app_nil_r.
  - rewrite App_query_inner, TodoListCard_query, Footer_query
      by (reflexivity || (vm_compute; discriminate)).
    destruct (0 <? length (todos s));
      cbn [app List.map textContent flat_map]; now rewrite ?app_nil_r.
Qed.


(** ** [JSON.parse] after [JSON.stringify] *)

Lemma hex_value_hex_digit (n : N) : (n < 16)%N -> hex_value (hex_digit n) = Some n.
Proof.
  intros H. unfold hex_digit, hex_value.
  destruct (N.ltb_spec n 10);
    repeat match goal with
           | |- context [(?a <=? ?b)%N] => destruct (N.leb_spec a b)
           end;
    cbn [andb]; try lia; f_equal; lia.
Qed.

Lemma hex4_UnicodeEscape (c : N) :
  (c < 65536)%N ->
  hex4 (hex_digit (c / 4096 mod 16)) (hex_digit (c / 256 mod 16))
       (hex_digit (c / 16 mod 16)) (hex_digit (c mod 16)) = Some c.
Proof.
  intros H. unfold hex4.
  rewrite !hex_value_hex_digit by (apply N.mod_lt; discriminate).
  f_equal.
  change 4096%N with (16 * 16 * 16)%N. change 256%N with (16 * 16)%N.
  rewrite <- !N.Div0.div_div.
  pose proof (N.Div0.div_mod c 16) as D0.
  pose proof (N.Div0.div_mod (c / 16) 16) as D1.
  pose proof (N.Div0.div_mod (c / 16 / 16) 16) as D2.
  pose proof (N.Div0.div_mod (c / 16 / 16 / 16) 16) as D3.
  assert (D4 : (c / 16 / 16 / 16 / 16 = 0)%N).
  { rewrite !N.Div0.div_div. apply N.div_small. exact H. }
  lia.
Qed.

Lemma parse_characters_unicode (h1 h2 h3 h4 : N) (rest : jsstring) :
  parse_characters (92%N :: 117%N :: h1 :: h2 :: h3 :: h4 :: rest)
  = match hex4 h1 h2 h3 h4 with
    | Some u => cons_unit u (parse_characters rest)
    | None => None
    end.
Proof. reflexivity. Qed.

Lemma parse_characters_literal (c : N) (rest : jsstring) :
  (c =? 34)%N = false -> (c =? 92)%N = false -> (c <? 32)%N = false ->
  parse_characters (c :: rest) = cons_unit c (parse_characters rest).
Proof. intros H1 H2 H3. cbn [parse_characters]. now rewrite H1, H2, H3. Qed.

Lemma parse_quote_code_point (c : N) (tail : jsstring) :
  parse_characters (quote_code_point c ++ tail) = cons_unit c (parse_characters tail).
Proof.
  unfold quote_code_point.
  destruct (c =? 8)%N eqn:E8; [apply N.eqb_eq in E8; now subst|].
  destruct (c =? 9)%N eqn:E9; [apply N.eqb_eq in E9; now subst|].
  destruct (c =? 10)%N eqn:E10; [apply N.eqb_eq in E10; now subst|].
  destruct (c =? 12)%N eqn:E12; [apply N.eqb_eq in E12; now subst|].
  destruct (c =? 13)%N eqn:E13; [apply N.eqb_eq in E13; now subst|].
  destruct (c =? 34)%N eqn:E34; [apply N.eqb_eq in E34; now subst|].
  destruct (c =? 92)%N eqn:E92; [apply N.eqb_eq in E92; now subst|].
  destruct ((c <? 32)%N || is_leading_surrogate c || is_trailing_surrogate c) eqn:Eu.
  - unfold UnicodeEscape. cbn [app]. rewrite parse_characters_unicode.
    rewrite hex4_UnicodeEscape; [reflexivity|].
    unfold is_leading_surrogate, is_trailing_surrogate in Eu.
    apply orb_true_iff in Eu. destruct Eu as [Eu|Eu].
    + apply orb_true_iff in Eu. destruct Eu as [Eu|Eu].
      * apply N.ltb_lt in Eu. lia.
      * apply andb_true_iff in Eu. destruct Eu as [_ Eu]. apply N.leb_le in Eu. lia.
    + apply andb_true_iff in Eu. destruct Eu as [_ Eu]. apply N.leb_le in Eu. lia.
  - apply orb_false_iff in Eu. destruct Eu as [Eu _].
    apply orb_false_iff in Eu. destruct Eu as [Eu _].
    cbn [app]. now apply parse_characters_literal.
Qed.

Lemma surrogate_literal (c : N) :
  is_leading_surrogate c = true \/ is_trailing_surrogate c = true ->
  (c =? 34)%N = false /\ (c =? 92)%N = false /\ (c <? 32)%N = false.
Proof.
  unfold is_leading_surrogate, is_trailing_surrogate.
  intros [H|H]; apply andb_true_iff in H; destruct H as [H _]; apply N.leb_le in H;
    repeat split; try (apply N.eqb_neq; lia); apply N.ltb_ge; lia.
Qed.

Lemma parse_quote_code_points (s rest : jsstring) :
  parse_characters (quote_code_points s ++ 34%N :: rest) = Some (s, rest).
Proof.
  remember (length s) as n eqn:Hn. revert s Hn.
  induction n as [n IH] using lt_wf_ind. intros s Hn.
  destruct s as [|c s]; [reflexivity|].
  assert (Hs : parse_characters (quote_code_points s ++ 34%N :: rest) = Some (s, rest)).
  { apply (IH (length s)); [subst n; simpl; lia | reflexivity]. }
  assert (Hplain : parse_characters ((quote_code_point c ++ quote_code_points s)
                                     ++ 34%N :: rest) = Some (c :: s, rest)).
  { rewrite <- app_assoc, parse_quote_code_point, Hs. reflexivity. }
  cbn [quote_code_points].
  destruct (is_leading_surrogate c) eqn:Ec; [|exact Hplain].
  destruct s as [|d s].
  - rewrite parse_quote_code_point. reflexivity.
  - destruct (is_trailing_surrogate d) eqn:Ed; [|exact Hplain].
    destruct (surrogate_literal c (or_introl Ec)) as (C1 & C2 & C3).
    destruct (surrogate_literal d (or_intror Ed)) as (D1 & D2 & D3).
    cbn [app]. rewrite (parse_characters_literal c) by assumption.
    rewrite (parse_characters_literal d) by assumption.
    rewrite (IH (length s)) with (s := s); [reflexivity | subst n; simpl; lia | reflexivity].
Qed.

Lemma parse_value_string (fuel : nat) (s rest : jsstring) :
  parse_value (S fuel) (QuoteJSONString s ++ rest) = Parsed (JString s) rest.
Proof.
  unfold QuoteJSONString. rewrite <- !app_assoc. cbn [app].
  cbn [parse_value skip_ws is_json_ws N.eqb Pos.eqb orb].
  now rewrite parse_quote_code_points.
Qed.

Lemma parse_value_boolean (fuel : nat) (b : bool) (rest : jsstring) :
  parse_value (S fuel) (stringify_boolean b ++ rest) = Parsed (JBoolean b) rest.
Proof. destruct b; reflexivity. Qed.

Lemma parse_members_cons (fuel : nat) (key vt more : jsstring) v ms r :
  parse_value fuel (vt ++ 44%N :: more) = Parsed v (44%N :: more) ->
  parse_members fuel more = Parsed ms r ->
  parse_members (S fuel) (QuoteJSONString key ++ 58%N :: vt ++ 44%N :: more)
  = Parsed ((key, v) :: ms) r.
Proof.
  intros Hv Hm. unfold QuoteJSONString. rewrite <- !app_assoc. cbn [app].
  cbn [parse_members skip_ws is_json_ws N.eqb Pos.eqb orb negb].
  rewrite parse_quote_code_points.
  cbn [skip_ws is_json_ws N.eqb Pos.eqb orb negb].
  rewrite Hv. cbn [skip_ws is_json_ws N.eqb Pos.eqb orb negb].
  now rewrite Hm.
Qed.

Lemma parse_members_last (fuel : nat) (key vt rest : jsstring) v :
  parse_value fuel (vt ++ 125%N :: rest) = Parsed v (125%N :: rest) ->
  parse_members (S fuel) (QuoteJSONString key ++ 58%N :: vt ++ 125%N :: rest)
  = Parsed [(key, v)] rest.
Proof.
  intros Hv. unfold QuoteJSONString. rewrite <- !app_assoc. cbn [app].
  cbn [parse_members skip_ws is_json_ws N.eqb Pos.eqb orb negb].
  rewrite parse_quote_code_points.
  cbn [skip_ws is_json_ws N.eqb Pos.eqb orb negb].
  rewrite Hv. reflexivity.
Qed.

Lemma parse_value_object (fuel : nat) (key tail : jsstring) ms rest :
  parse_members fuel (QuoteJSONString key ++ tail) = Parsed ms rest ->
  parse_value (S fuel) (123%N :: QuoteJSONString key ++ tail) = Parsed (JObject ms) rest.
Proof.
  unfold QuoteJSONString. cbn [app]. intros H.
  cbn [parse_value skip_ws is_json_ws N.eqb Pos.eqb orb]. now rewrite H.
Qed.

Lemma parse_value_Todo (fuel : nat) (t : Todo) (rest : jsstring) :
  parse_value (6 + fuel) (stringify_Todo t ++ rest) = Parsed (js_of_Todo t) rest.
Proof.
  unfold stringify_Todo. rewrite <- !app_assoc.
  change (js "{") with [123%N]. change (js ":") with [58%N].
  change (js ",") with [44%N]. change (js "}") with [125%N]. cbn [app].
  change (6 + fuel) with (S (S (S (S (S (S fuel)))))).
  apply parse_value_object.
  apply parse_members_cons; [apply parse_value_string|].
  apply parse_members_cons; [apply parse_value_string|].
  apply parse_members_cons; [apply parse_value_boolean|].
  apply parse_members_last. apply parse_value_string.
Qed.

Lemma parse_elements_Todos (fuel : nat) (t : Todo) (l : list Todo) (rest : jsstring) :
  parse_elements (length l + 7 + fuel)
    (join_comma (List.map stringify_Todo (t :: l)) ++ 93%N :: rest)
  = Parsed (List.map js_of_Todo (t :: l)) rest.
Proof.
  revert t. induction l as [|t' l IH]; intros t.
  - cbn [List.map join_comma]. change (length [] + 7 + fuel) with (S (6 + fuel)).
    cbn [parse_elements].
    rewrite (parse_value_Todo fuel t (93%N :: rest)). reflexivity.
  - change (join_comma (List.map stringify_Todo (t :: t' :: l)))
      with (stringify_Todo t ++ js "," ++ join_comma (List.map stringify_Todo (t' :: l))).
    rewrite <- !app_assoc. change (js ",") with [44%N]. cbn [app].
    change (length (t' :: l) + 7 + fuel) with (S (length l + 7 + fuel)).
    cbn [parse_elements].
    replace (length l + 7 + fuel) with (6 + (length l + 1 + fuel)) at 1 by lia.
    rewrite parse_value_Todo. cbn [skip_ws is_json_ws N.eqb Pos.eqb orb].
    rewrite IH. reflexivity.
Qed.

Lemma stringify_Todo_head (t : Todo) :
  exists tail, stringify_Todo t = 123%N :: 34%N :: tail.
Proof. eexists. reflexivity. Qed.

Lemma parse_value_Todos (fuel : nat) (l : list Todo) (rest : jsstring) :
  length l + 8 <= fuel ->
  parse_value fuel (JSON.stringify l ++ rest) = Parsed (js_of_Todos l) rest.
Proof.
  intros Hf. replace fuel with (S (length l + 7 + (fuel - (length l + 8)))) by lia.
  unfold JSON.stringify, js_of_Todos. rewrite <- !app_assoc.
  change (js "[") with [91%N]. change (js "]") with [93%N]. cbn [app].
  destruct l as [|t l]; [reflexivity|].
  cbn [parse_value skip_ws is_json_ws N.eqb Pos.eqb orb].
  destruct (stringify_Todo_head t) as (tail & Et).
  assert (Ej : exists tail', join_comma (List.map stringify_Todo (t :: l))
                             = 123%N :: 34%N :: tail').
  { destruct l; cbn [List.map join_comma]; rewrite Et; eexists; reflexivity. }
  destruct Ej as (tail' & Ej). rewrite Ej in *. cbn [app] in *.
  cbn [skip_ws is_json_ws N.eqb Pos.eqb orb].
  replace (length (t :: l) + 7 + (fuel - (length (t :: l) + 8)))
    with (length l + 7 + (S (fuel - (length (t :: l) + 8)))) by (simpl; lia).
  pose proof (parse_elements_Todos (S (fuel - (length (t :: l) + 8))) t l rest) as H'.
  rewrite Ej in H'. cbn [app] in H'. rewrite H'. reflexivity.
Qed.

Lemma join_comma_length (l : list Todo) :
  2 * length l <= length (join_comma (List.map stringify_Todo l)).
Proof.
  induction l as [|t l IH]; [simpl; lia|].
  destruct (stringify_Todo_head t) as (tail & Et).
  destruct l as [|t' l].
  - cbn [List.map join_comma]. rewrite Et. simpl. lia.
  - change (join_comma (List.map stringify_Todo (t :: t' :: l)))
      with (stringify_Todo t ++ js "," ++ join_comma (List.map stringify_Todo (t' :: l))).
    rewrite Et, !length_app. simpl length in *. lia.
Qed.

Lemma JSON_parse_stringify (l : list Todo) :
  JSON.parse (JSON.stringify l) = Ok (js_of_Todos l).
Proof.
  destruct l as [|t l]; [reflexivity|].
  unfold JSON.parse.
  rewrite <- (app_nil_r (JSON.stringify (t :: l))) at 2.
  rewrite parse_value_Todos; [reflexivity|].
  unfold JSON.stringify. rewrite !length_app.
  pose proof (join_comma_length (t :: l)) as H. simpl length in *. lia.
Qed.

Lemma as_Todo_js_of_Todo (t : Todo) : as_Todo (js_of_Todo t) = Some t.
Proof. now destruct t. Qed.

Lemma as_Todos_js_of_Todos (l : list Todo) : as_Todos (js_of_Todos l) = Some l.
Proof.
  unfold as_Todos, js_of_Todos. induction l as [|t l IH]; [reflexivity|].
  cbn [List.map mapM]. rewrite as_Todo_js_of_Todo. cbn. now rewrite IH.
Qed.

Lemma js_of_Todos_inj (l1 l2 : list Todo) : js_of_Todos l1 = js_of_Todos l2 -> l1 = l2.
Proof.
  intros H. apply (f_equal as_Todos) in H.
  rewrite !as_Todos_js_of_Todos in H. congruence.
Qed.


(** ** The parser consumes its input and never runs out of fuel *)

Lemma skip_ws_length (s : jsstring) : length (skip_ws s) <= length s.
Proof.
  induction s as [|c s IH]; simpl; [lia|]. destruct (is_json_ws c); simpl; lia.
Qed.

Lemma skip_ws_cons (s rest : jsstring) (c : N) :
  skip_ws s = c :: rest -> length rest < length s.
Proof. intros H. pose proof (skip_ws_length s) as L. rewrite H in L. simpl in L. lia. Qed.

Lemma digits_length (s : jsstring) : length (snd (digits s)) <= length s.
Proof.
  induction s as [|c s IH]; simpl; [lia|].
  destruct (is_digit c); [|simpl; lia].
  destruct (digits s) as [ds r]. simpl in *. lia.
Qed.

Lemma digits_rest (s ds r : jsstring) : digits s = (ds, r) -> length r <= length s.
Proof. intros H. pose proof (digits_length s) as L. now rewrite H in L. Qed.

Lemma cons_unit_Some (c : N) o (str rest : jsstring) :
  cons_unit c o = Some (str, rest) -> exists str', o = Some (str', rest).
Proof. destruct o as [[s' r']|]; simpl; [|discriminate]. intros [= _ <-]. now exists s'. Qed.

Lemma parse_characters_length (s str rest : jsstring) :
  parse_characters s = Some (str, rest) -> length rest < length s.
Proof.
  remember (length s) as n eqn:Hn. revert s str rest Hn.
  induction n as [n IH] using lt_wf_ind. intros s str rest Hn H.
  destruct s as [|c s]; [discriminate|]. cbn [parse_characters] in H.
  destruct (c =? 34)%N.
  { injection H as _ <-. subst n. simpl. lia. }
  destruct (c =? 92)%N.
  - destruct s as [|e s]; [discriminate|].
    destruct (e =? 117)%N.
    + destruct s as [|h1 [|h2 [|h3 [|h4 s]]]]; try discriminate.
      destruct (hex4 h1 h2 h3 h4); [|discriminate].
      apply cons_unit_Some in H. destruct H as (str' & H).
      apply (IH (length s)) in H; subst n; simpl in *; lia.
    + destruct (unescape e); [|discriminate].
      apply cons_unit_Some in H. destruct H as (str' & H).
      apply (IH (length s)) in H; subst n; simpl in *; lia.
  - destruct (c <? 32)%N; [discriminate|].
    apply cons_unit_Some in H. destruct H as (str' & H).
    apply (IH (length s)) in H; subst n; simpl in *; lia.
Qed.

Lemma number_sign_length (s sign r : jsstring) :
  number_sign s = (sign, r) -> length r <= length s.
Proof.
  destruct s as [|c s]; simpl; [intros [= _ <-]; simpl; lia|].
  destruct (c =? 45)%N; intros [= _ <-]; simpl; lia.
Qed.

Lemma number_int_length (s int r : jsstring) :
  number_int s = Some (int, r) -> length r < length s.
Proof.
  destruct s as [|c s]; simpl; [discriminate|].
  destruct (c =? 48)%N; [intros [= _ <-]; lia|].
  destruct (is_digit c); [|discriminate].
  destruct (digits s) as [ds r'] eqn:E. apply digits_rest in E.
  intros [= _ <-]. lia.
Qed.

Lemma number_frac_length (s fr r : jsstring) :
  number_frac s = Some (fr, r) -> length r <= length s.
Proof.
  destruct s as [|p s]; simpl; [intros [= _ <-]; simpl; lia|].
  destruct (p =? 46)%N; [|intros [= _ <-]; simpl; lia].
  destruct (digits s) as [[|d ds] r'] eqn:E; [discriminate|].
  apply digits_rest in E. intros [= _ <-]. lia.
Qed.

Lemma number_exp_length (s ex r : jsstring) :
  number_exp s = Some (ex, r) -> length r <= length s.
Proof.
  destruct s as [|e s]; simpl; [intros [= _ <-]; simpl; lia|].
  destruct ((e =? 101)%N || (e =? 69)%N); [|intros [= _ <-]; simpl; lia].
  destruct (match s with [] => _ | _ => _ end) as [esign r1] eqn:Es.
  assert (L : length r1 <= length s).
  { destruct s as [|g s']; [injection Es as _ <-; lia|].
    destruct ((g =? 43)%N || (g =? 45)%N); injection Es as _ <-; simpl; lia. }
  destruct (digits r1) as [[|d ds] r2] eqn:E; [discriminate|].
  apply digits_rest in E. intros [= _ <-]. lia.
Qed.

Lemma parse_number_length (s lit rest : jsstring) :
  parse_number s = Some (lit, rest) -> length rest < length s.
Proof.
  unfold parse_number.
  destruct (number_sign s) as [sign s1] eqn:E1. apply number_sign_length in E1.
  destruct (number_int s1) as [[int s2]|] eqn:E2; [|discriminate].
  apply number_int_length in E2.
  destruct (number_frac s2) as [[fr s3]|] eqn:E3; [|discriminate].
  apply number_frac_length in E3.
  destruct (number_exp s3) as [[ex s4]|] eqn:E4; [|discriminate].
  apply number_exp_length in E4. intros [= _ <-]. lia.
Qed.

Lemma strip_prefix_length (p s rest : jsstring) :
  strip_prefix p s = Some rest -> length rest + length p = length s.
Proof.
  revert s. induction p as [|a p IH]; intros s; simpl.
  - intros [= <-]. lia.
  - destruct s as [|b s]; [discriminate|]. destruct (a =? b)%N; [|discriminate].
    intros H. apply IH in H. simpl. lia.
Qed.

Lemma parse_literal_length (word : jsstring) (v v' : json) (s rest : jsstring) :
  0 < length word ->
  parse_literal word v s = Parsed v' rest -> length rest < length s.
Proof.
  intros Hw. unfold parse_literal.
  destruct (strip_prefix word s) as [r|] eqn:E; [|discriminate].
  apply strip_prefix_length in E. intros [= _ <-]. lia.
Qed.

Lemma parse_literal_fuel (word : jsstring) (v : json) (s : jsstring) :
  parse_literal word v s <> OutOfFuel.
Proof. unfold parse_literal. destruct (strip_prefix word s); discriminate. Qed.

Ltac break_match_in H :=
  match type of H with
  | context [match ?x with _ => _ end] => destruct x eqn:?
  end.

Ltac break_match_goal :=
  match goal with
  | |- context [match ?x with _ => _ end] => destruct x eqn:?
  end.

Ltac length_facts :=
  repeat match goal with
  | H : skip_ws _ = _ :: _ |- _ => apply skip_ws_cons in H
  | H : parse_characters _ = Some _ |- _ => apply parse_characters_length in H
  | H : parse_number _ = Some _ |- _ => apply parse_number_length in H
  | H : parse_literal _ _ _ = Parsed _ _ |- _ =>
      apply parse_literal_length in H; [|simpl; lia]
  end.

Lemma parse_consumes (fuel : nat) :
  (forall s v r, parse_value fuel s = Parsed v r -> length r < length s)
  /\ (forall s vs r, parse_elements fuel s = Parsed vs r -> length r < length s)
  /\ (forall s ms r, parse_members fuel s = Parsed ms r -> length r < length s).
Proof.
  induction fuel as [|fuel (IHv & IHe & IHm)];
    [repeat split; intros; discriminate|].
  split; [|split]; intros s x r H.
  - cbn [parse_value] in H.
    repeat (break_match_in H; try discriminate);
      repeat match goal with
             | K : parse_members fuel _ = Parsed _ _ |- _ => apply IHm in K
             | K : parse_elements fuel _ = Parsed _ _ |- _ => apply IHe in K
             end;
      length_facts; try (injection H as _ <-); simpl in *; lia.
  - cbn [parse_elements] in H.
    repeat (break_match_in H; try discriminate);
      repeat match goal with
             | K : parse_value fuel _ = Parsed _ _ |- _ => apply IHv in K
             | K : parse_elements fuel _ = Parsed _ _ |- _ => apply IHe in K
             end;
      length_facts; try (injection H as _ <-); simpl in *; lia.
  - cbn [parse_members] in H.
    repeat (break_match_in H; try discriminate);
      repeat match goal with
             | K : parse_value fuel _ = Parsed _ _ |- _ => apply IHv in K
             | K : parse_members fuel _ = Parsed _ _ |- _ => apply IHm in K
             end;
      length_facts; try (injection H as _ <-); simpl in *; lia.
Qed.

Ltac consumed :=
  repeat match goal with
  | K : parse_value ?f _ = Parsed _ _ |- _ => apply (proj1 (parse_consumes f)) in K
  | K : parse_elements ?f _ = Parsed _ _ |- _ =>
      apply (proj1 (proj2 (parse_consumes f))) in K
  | K : parse_members ?f _ = Parsed _ _ |- _ =>
      apply (proj2 (proj2 (parse_consumes f))) in K
  end.

Lemma parse_fuel (fuel : nat) :
  (forall s, 2 * length s + 1 <= fuel -> parse_value fuel s <> OutOfFuel)
  /\ (forall s, 2 * length s + 2 <= fuel -> parse_elements fuel s <> OutOfFuel)
  /\ (forall s, 2 * length s + 2 <= fuel -> parse_members fuel s <> OutOfFuel).
Proof.
  induction fuel as [|fuel (IHv & IHe & IHm)]; [repeat split; intros; lia|].
  split; [|split]; intros s Hs.
  - cbn [parse_value].
    repeat (break_match_goal; try discriminate); try apply parse_literal_fuel;
      exfalso;
      match goal with
      | K : parse_members fuel _ = OutOfFuel |- _ => apply IHm in K; [exact K|]
      | K : parse_elements fuel _ = OutOfFuel |- _ => apply IHe in K; [exact K|]
      end;
      length_facts; simpl in *; lia.
  - cbn [parse_elements].
    repeat (break_match_goal; try discriminate);
      exfalso;
      match goal with
      | K : parse_value fuel _ = OutOfFuel |- _ => apply IHv in K; [exact K|]
      | K : parse_elements fuel _ = OutOfFuel |- _ => apply IHe in K; [exact K|]
      end;
      consumed; length_facts; simpl in *; lia.
  - cbn [parse_members].
    repeat (break_match_goal; try discriminate);
      exfalso;
      match goal with
      | K : parse_value fuel _ = OutOfFuel |- _ => apply IHv in K; [exact K|]
      | K : parse_members fuel _ = OutOfFuel |- _ => apply IHm in K; [exact K|]
      end;
      consumed; length_facts; simpl in *; lia.
Qed.

Ltac same_call call IH :=
  let K := fresh "K" in
  destruct call eqn:K;
  [ rewrite IH by (rewrite K; discriminate); rewrite K
  | rewrite IH by (rewrite K; discriminate); rewrite K
  | let H := fresh in intros H; exfalso; apply H; reflexivity ].

Lemma parse_fuel_mono (fuel : nat) :
  (forall s, parse_value fuel s <> OutOfFuel ->
             parse_value (S fuel) s = parse_value fuel s)
  /\ (forall s, parse_elements fuel s <> OutOfFuel ->
                parse_elements (S fuel) s = parse_elements fuel s)
  /\ (forall s, parse_members fuel s <> OutOfFuel ->
                parse_members (S fuel) s = parse_members fuel s).
Proof.
  induction fuel as [|fuel (IHv & IHe & IHm)];
    [repeat split; intros s H; exfalso; apply H; reflexivity|].
  split; [|split]; intros s.
  - enough (G : forall f1, f1 = S fuel -> parse_value (S fuel) s <> OutOfFuel ->
                parse_value (S f1) s = parse_value (S fuel) s)
      by (apply G; reflexivity).
    intros f1 E. cbn [parse_value]. subst f1.
    repeat match goal with
    | |- context [parse_members fuel ?x] => same_call (parse_members fuel x) (IHm x)
    | |- context [parse_elements fuel ?x] => same_call (parse_elements fuel x) (IHe x)
    | |- context [match ?y with _ => _ end] => destruct y eqn:?
    end; reflexivity.
  - enough (G : forall f1, f1 = S fuel -> parse_elements (S fuel) s <> OutOfFuel ->
                parse_elements (S f1) s = parse_elements (S fuel) s)
      by (apply G; reflexivity).
    intros f1 E. cbn [parse_elements]. subst f1.
    repeat match goal with
    | |- context [parse_value fuel ?x] => same_call (parse_value fuel x) (IHv x)
    | |- context [parse_elements fuel ?x] => same_call (parse_elements fuel x) (IHe x)
    | |- context [match ?y with _ => _ end] => destruct y eqn:?
    end; reflexivity.
  - enough (G : forall f1, f1 = S fuel -> parse_members (S fuel) s <> OutOfFuel ->
                parse_members (S f1) s = parse_members (S fuel) s)
      by (apply G; reflexivity).
    intros f1 E. cbn [parse_members]. subst f1.
    repeat match goal with
    | |- context [parse_value fuel ?x] => same_call (parse_value fuel x) (IHv x)
    | |- context [parse_members fuel ?x] => same_call (parse_members fuel x) (IHm x)
    | |- context [match ?y with _ => _ end] => destruct y eqn:?
    end; reflexivity.
Qed.

(** The fuel that [JSON.parse] gives the parser is enough for every
    text, and more fuel changes nothing: a [SyntaxError] of the model is
    a syntax error. *)
Theorem JSON_parse_fuel_enough (s : jsstring) (extra : nat) :
  parse_value (2 * length s + 1) s <> OutOfFuel
  /\ parse_value (2 * length s + 1 + extra) s = parse_value (2 * length s + 1) s.
Proof.
  assert (H : parse_value (2 * length s + 1) s <> OutOfFuel).
  { apply (proj1 (parse_fuel _)). lia. }
  split; [exact H|]. induction extra as [|extra IH].
  - now rewrite Nat.add_0_r.
  - rewrite Nat.add_succ_r, (proj1 (parse_fuel_mono _)); [exact IH|].
    now rewrite IH.
Qed.

(** [JSON.parse(JSON.stringify(s))] is [s] for every string, control
    characters, quotes and lone surrogates included. *)
Theorem JSON_string_roundtrip (s : jsstring) :
  JSON.parse (QuoteJSONString s) = Ok (JString s).
Proof.
  unfold JSON.parse. rewrite Nat.add_1_r.
  rewrite <- (app_nil_r (QuoteJSONString s)) at 2.
  now rewrite parse_value_string.
Qed.


(** ** Loading *)

Lemma loadTodos_absent (st : Storage) :
  localStorage.getItem STORAGE_TODOS st = Ok None -> loadTodos st = JArray [].
Proof. intros H. unfold loadTodos, loadTodos_try. now rewrite H. Qed.

Lemma loadTodos_unparseable (st : Storage) (raw : jsstring) (e : exn) :
  localStorage.getItem STORAGE_TODOS st = Ok (Some raw) -> JSON.parse raw = Throw e ->
  loadTodos st = JArray [].
Proof.
  intros H P. unfold loadTodos, loadTodos_try. rewrite H. cbn.
  destruct raw; [reflexivity|]. now rewrite P.
Qed.

Lemma loadTodos_failure (st : Storage) (e : exn) :
  loadTodos_try st = Throw e -> loadTodos st = JArray [].
Proof. intros H. unfold loadTodos. now rewrite H. Qed.

Lemma loadDarkMode_absent (st : Storage) :
  localStorage.getItem STORAGE_DARKMODE st = Ok None -> loadDarkMode st = true.
Proof. intros H. unfold loadDarkMode, loadDarkMode_try. now rewrite H. Qed.

Lemma loadDarkMode_failure (st : Storage) (e : exn) :
  loadDarkMode_try st = Throw e -> loadDarkMode st = true.
Proof. intros H. unfold loadDarkMode. now rewrite H. Qed.

(** A stored theme entry is never a failure: it reads as dark exactly
    when it is the text [true]. *)
Lemma loadDarkMode_present (st : Storage) (raw : jsstring) :
  localStorage.getItem STORAGE_DARKMODE st = Ok (Some raw) ->
  loadDarkMode st = str_eqb raw (js "true").
Proof. intros H. unfold loadDarkMode, loadDarkMode_try. now rewrite H. Qed.

(** C2. A missing or unparseable list entry, and any exception while
    reading it, make [loadTodos] return the empty array, so the state
    starts with the empty list; a missing theme entry, and any exception
    while reading it, make [loadDarkMode] return [true].  Neither
    function lets an exception out. *)
Theorem load_fails_soft (st : Storage) :
  (localStorage.getItem STORAGE_TODOS st = Ok None -> loadTodos st = JArray [])
  /\ (forall raw e, localStorage.getItem STORAGE_TODOS st = Ok (Some raw) ->
        JSON.parse raw = Throw e -> loadTodos st = JArray [])
  /\ (forall e, loadTodos_try st = Throw e -> loadTodos st = JArray [])
  /\ (loadTodos st = JArray [] ->
      initialState st = Some (mkState [] (loadDarkMode st) All []))
  /\ (localStorage.getItem STORAGE_DARKMODE st = Ok None -> loadDarkMode st = true)
  /\ (forall e, localStorage.getItem STORAGE_DARKMODE st = Throw e ->
        loadDarkMode st = true)
  /\ (forall e, loadDarkMode_try st = Throw e -> loadDarkMode st = true).
Proof.
  split; [apply loadTodos_absent|].
  split; [apply loadTodos_unparseable|].
  split; [apply loadTodos_failure|].
  split; [intros H; unfold initialState; now rewrite H|].
  split; [apply loadDarkMode_absent|].
  split; [|apply loadDarkMode_failure].
  intros e H. apply (loadDarkMode_failure st e).
  unfold loadDarkMode_try. now rewrite H.
Qed.

Lemma load_fails_soft_witness :
  initialState corrupt_storage = Some freshState
  /\ loadTodos denied_storage = JArray []
  /\ loadDarkMode denied_storage = true.
Proof.
  destruct (load_fails_soft corrupt_storage) as (_ & H2 & _ & H4 & H5 & _).
  destruct (load_fails_soft denied_storage) as (_ & _ & K3 & _ & _ & K6 & _).
  split; [|split].
  - rewrite H4.
    + rewrite H5; reflexivity.
    + apply (H2 (js "[{oops") SyntaxError); reflexivity.
  - apply (K3 SecurityError). reflexivity.
  - apply (K6 SecurityError). reflexivity.
Defined.

(** ** Saving, then loading *)

Lemma STORAGE_keys_differ : STORAGE_TODOS <> STORAGE_DARKMODE.
Proof. intros H. vm_compute in H. discriminate H. Qed.

Lemma setItem_Ok (key value : jsstring) (st st' : Storage) :
  localStorage.setItem key value st = Ok st' ->
  denied st = false /\ st' = mkStorage false (quota st) (<[key := value]> (items st)).
Proof.
  unfold localStorage.setItem. destruct (denied st); [discriminate|].
  destruct (quota st) as [q|]; [destruct (q <? _)|]; intros [= <-]; auto.
Qed.

Lemma getItem_setItem (key value : jsstring) (st st' : Storage) :
  localStorage.setItem key value st = Ok st' ->
  localStorage.getItem key st' = Ok (Some value).
Proof.
  intros H. apply setItem_Ok in H. destruct H as (_ & ->).
  unfold localStorage.getItem. cbn. now rewrite lookup_insert_eq.
Qed.

Lemma getItem_setItem_other (key key' value : jsstring) (st st' : Storage) :
  key <> key' -> localStorage.setItem key value st = Ok st' ->
  localStorage.getItem key' st' = localStorage.getItem key' st.
Proof.
  intros Hne H. apply setItem_Ok in H. destruct H as (Hd & ->).
  unfold localStorage.getItem. cbn. rewrite Hd. now rewrite lookup_insert_ne.
Qed.

Lemma JSON_stringify_head (l : list Todo) :
  exists tail, JSON.stringify l = 91%N :: tail.
Proof. eexists. reflexivity. Qed.

Lemma loadTodos_stored (l : list Todo) (st : Storage) :
  localStorage.getItem STORAGE_TODOS st = Ok (Some (JSON.stringify l)) ->
  loadTodos st = js_of_Todos l.
Proof.
  intros H. unfold loadTodos, loadTodos_try. rewrite H.
  cbn [mbind result_bind].
  destruct (JSON_stringify_head l) as (tail & E).
  destruct (JSON.stringify l) as [|c raw] eqn:Es; [discriminate|].
  rewrite <- Es, JSON_parse_stringify. reflexivity.
Qed.

Lemma loadDarkMode_stored (d : bool) (st : Storage) :
  localStorage.getItem STORAGE_DARKMODE st = Ok (Some (String_boolean d)) ->
  loadDarkMode st = d.
Proof.
  intros H. rewrite (loadDarkMode_present _ _ H). now destruct d.
Qed.

Lemma initialState_stored (l : list Todo) (d : bool) (st : Storage) :
  localStorage.getItem STORAGE_TODOS st = Ok (Some (JSON.stringify l)) ->
  localStorage.getItem STORAGE_DARKMODE st = Ok (Some (String_boolean d)) ->
  initialState st = Some (mkState l d All []).
Proof.
  intros H1 H2. unfold initialState.
  now rewrite (loadTodos_stored l), as_Todos_js_of_Todos, (loadDarkMode_stored d).
Qed.

(** C3. When the store takes both writes, the list and the theme that
    were saved are the ones a new page load reads back: [loadTodos]
    yields the value of the saved list, [loadDarkMode] the saved flag,
    and the state of the new page holds both. *)
Theorem save_load_roundtrip (l : list Todo) (d : bool) (st st1 st2 : Storage) :
  localStorage.setItem STORAGE_TODOS (JSON.stringify l) st = Ok st1 ->
  localStorage.setItem STORAGE_DARKMODE (String_boolean d) st1 = Ok st2 ->
  saveDarkMode d (saveTodos l st) = st2
  /\ loadTodos st2 = js_of_Todos l
  /\ (forall l', loadTodos st2 = js_of_Todos l' -> l' = l)
  /\ as_Todos (loadTodos st2) = Some l
  /\ loadDarkMode st2 = d
  /\ initialState st2 = Some (mkState l d All []).
Proof.
  intros H1 H2.
  assert (G1 : localStorage.getItem STORAGE_TODOS st2 = Ok (Some (JSON.stringify l))).
  { rewrite (getItem_setItem_other STORAGE_DARKMODE STORAGE_TODOS
               (String_boolean d) st1 st2);
      [eapply getItem_setItem; eassumption | | assumption].
    intros E. now apply STORAGE_keys_differ. }
  assert (G2 : localStorage.getItem STORAGE_DARKMODE st2 = Ok (Some (String_boolean d))).
  { eapply getItem_setItem; eassumption. }
  split; [unfold saveDarkMode, saveTodos; rewrite H1; cbn [try_catch]; now rewrite H2|].
  split; [now apply loadTodos_stored|].
  split; [intros l' E; rewrite (loadTodos_stored l) in E by assumption;
          symmetry; now apply js_of_Todos_inj|].
  split; [rewrite (loadTodos_stored l) by assumption; apply as_Todos_js_of_Todos|].
  split; [now apply loadDarkMode_stored|].
  now apply initialState_stored.
Qed.

Lemma save_load_roundtrip_witness :
  initialState (saveDarkMode false (saveTodos sample_todos sample_storage))
  = Some (mkState sample_todos false All []).
Proof.
  destruct (save_load_roundtrip sample_todos false sample_storage
              (saveTodos sample_todos sample_storage)
              (saveDarkMode false (saveTodos sample_todos sample_storage)))
    as (_ & _ & _ & _ & _ & H); [vm_compute; reflexivity | vm_compute; reflexivity |].
  exact H.
Defined.


(** ** Sessions: write-through and reload *)

Lemma saveTodos_items (l : list Todo) (st : Storage) :
  saveTodos l st = st
  \/ saveTodos l st
     = mkStorage false (quota st) (<[STORAGE_TODOS := JSON.stringify l]> (items st)).
Proof.
  unfold saveTodos. destruct (localStorage.setItem _ _ st) as [st'|e] eqn:E; [|now left].
  right. apply setItem_Ok in E. now destruct E as (_ & ->).
Qed.

Lemma saveDarkMode_items (d : bool) (st : Storage) :
  saveDarkMode d st = st
  \/ saveDarkMode d st
     = mkStorage false (quota st) (<[STORAGE_DARKMODE := String_boolean d]> (items st)).
Proof.
  unfold saveDarkMode. destruct (localStorage.setItem _ _ st) as [st'|e] eqn:E; [|now left].
  right. apply setItem_Ok in E. now destruct E as (_ & ->).
Qed.

Lemma saveTodos_working (l : list Todo) (st : Storage) :
  denied st = false -> quota st = None ->
  saveTodos l st
  = mkStorage false None (<[STORAGE_TODOS := JSON.stringify l]> (items st)).
Proof. intros Hd Hq. unfold saveTodos, localStorage.setItem. now rewrite Hd, Hq. Qed.

Lemma saveDarkMode_working (d : bool) (st : Storage) :
  denied st = false -> quota st = None ->
  saveDarkMode d st
  = mkStorage false None (<[STORAGE_DARKMODE := String_boolean d]> (items st)).
Proof. intros Hd Hq. unfold saveDarkMode, localStorage.setItem. now rewrite Hd, Hq. Qed.

Lemma saveTodos_synced (s : State) (st : Storage) (l : list Todo) :
  synced (s, st) ->
  synced (mkState l (darkMode s) (filter s) (inputValue s), saveTodos l st).
Proof.
  intros (Hd & Hq & H1 & H2). cbn [fst snd] in *.
  rewrite saveTodos_working by assumption. repeat split; cbn.
  - apply lookup_insert_eq.
  - rewrite lookup_insert_ne by apply STORAGE_keys_differ. exact H2.
Qed.

Lemma saveDarkMode_synced (s : State) (st : Storage) (d : bool) :
  synced (s, st) ->
  synced (mkState (todos s) d (filter s) (inputValue s), saveDarkMode d st).
Proof.
  intros (Hd & Hq & H1 & H2). cbn [fst snd] in *.
  rewrite saveDarkMode_working by assumption. repeat split; cbn.
  - rewrite lookup_insert_ne; [exact H1|]. intros E. now apply STORAGE_keys_differ.
  - apply lookup_insert_eq.
Qed.

Lemma step_synced (e : Event) (w : State * Storage) : synced w -> synced (step e w).
Proof.
  destruct w as [s st]. intros H. unfold step. cbn [fst snd].
  destruct e; cbn [handle run_effects];
    try (apply (saveTodos_synced s st); exact H);
    try (apply (saveDarkMode_synced s st); exact H);
    try exact H.
  unfold addTodo. destruct (trim (inputValue s)) as [|c r]; [exact H|].
  destruct H as (Hd & Hq & H1 & H2). cbn [fst snd] in *.
  cbn [setInputValue setTodos todos darkMode].
  rewrite saveTodos_working by assumption. repeat split; cbn.
  - apply lookup_insert_eq.
  - rewrite lookup_insert_ne by apply STORAGE_keys_differ. exact H2.
Qed.

Lemma run_synced (events : list Event) (w : State * Storage) :
  synced w -> synced (run events w).
Proof.
  revert w. induction events as [|e events IH]; intros w H; [exact H|].
  apply IH, step_synced, H.
Qed.

Lemma mount_synced (st : Storage) (w : State * Storage) :
  denied st = false -> quota st = None -> mount st = Some w -> synced w.
Proof.
  intros Hd Hq. unfold mount. destruct (initialState st) as [s|]; [|discriminate].
  intros [= <-]. rewrite saveTodos_working by assumption.
  rewrite saveDarkMode_working by reflexivity. repeat split; cbn.
  - rewrite lookup_insert_ne; [apply lookup_insert_eq|].
    intros E. now apply STORAGE_keys_differ.
  - apply lookup_insert_eq.
Qed.

Lemma synced_mount (s : State) (st : Storage) :
  synced (s, st) ->
  mount st = Some (mkState (todos s) (darkMode s) All [], st).
Proof.
  intros (Hd & Hq & H1 & H2). cbn [fst snd] in *. unfold mount.
  rewrite (initialState_stored (todos s) (darkMode s)).
  - cbn [todos darkMode]. rewrite saveTodos_working by assumption.
    rewrite saveDarkMode_working by reflexivity. cbn [items].
    rewrite (insert_id (items st)) by exact H1.
    rewrite (insert_id (items st)) by exact H2.
    destruct st as [dn q it]. cbn in *. now subst.
  - unfold localStorage.getItem. now rewrite Hd, H1.
  - unfold localStorage.getItem. now rewrite Hd, H2.
Qed.

(** X1. On a store that takes every write, whatever the user does, a
    page reload brings back the list and the theme of the moment, with the
    filter and the input field reset, and leaves the store as it is. *)
Theorem reload_restores (st : Storage) (events : list Event) (w0 : State * Storage) :
  denied st = false -> quota st = None -> mount st = Some w0 ->
  mount (snd (run events w0))
  = Some (mkState (todos (fst (run events w0))) (darkMode (fst (run events w0))) All [],
          snd (run events w0)).
Proof.
  intros Hd Hq Hm. apply synced_mount.
  rewrite <- surjective_pairing. apply run_synced. eapply mount_synced; eassumption.
Qed.

Lemma reload_restores_witness :
  mount (snd (run sample_events first_visit))
  = Some (mkState [mkTodo (js "c") (js "Water plants") true (js "2024-01-03T00:00:00.000Z")]
            false All [],
          snd (run sample_events first_visit)).
Proof.
  apply (reload_restores cleared_storage sample_events first_visit); reflexivity.
Defined.

(** ** The ids of the list stay pairwise distinct *)

Lemma NoDup_map_filter {A B} (f : A -> B) (p : A -> bool) (l : list A) :
  NoDup (List.map f l) -> NoDup (List.map f (List.filter p l)).
Proof.
  induction l as [|a l IH]; simpl; [auto|]. intros H.
  apply NoDup_cons in H. destruct H as (Ha & Hl).
  destruct (p a); simpl; [|auto]. apply NoDup_cons. split; [|auto].
  intros Hin. apply Ha. apply list_elem_of_In in Hin. apply list_elem_of_In.
  apply in_map_iff in Hin. destruct Hin as (x & Ex & Hx).
  apply filter_In in Hx. apply in_map_iff. exists x. tauto.
Qed.

Lemma handle_ids_distinct (e : Event) (s : State) :
  NoDup (List.map id (todos s)) -> fresh e s ->
  NoDup (List.map id (todos (handle e s))).
Proof.
  intros H Hf. destruct e; cbn [handle]; try exact H.
  - unfold addTodo. destruct (trim (inputValue s)) as [|c r]; [exact H|].
    cbn [setInputValue setTodos todos]. rewrite List.map_app. cbn [List.map id].
    apply NoDup_app. split; [exact H|]. split; [|apply NoDup_singleton].
    intros x Hx Hx'. apply list_elem_of_In in Hx. apply list_elem_of_In in Hx'.
    destruct Hx' as [<-|[]]. now apply Hf.
  - now rewrite toggleTodo_ids.
  - now apply NoDup_map_filter.
  - now apply NoDup_map_filter.
Qed.

Lemma initialState_ids_distinct (st : Storage) (s : State) :
  (forall raw, items st !! STORAGE_TODOS = Some raw ->
     exists l, raw = JSON.stringify l /\ NoDup (List.map id l)) ->
  initialState st = Some s -> NoDup (List.map id (todos s)).
Proof.
  intros Hst. unfold initialState.
  destruct (denied st) eqn:Hd.
  - unfold loadTodos, loadTodos_try, localStorage.getItem. rewrite Hd. cbn.
    intros [= <-]. apply NoDup_nil_2.
  - destruct (items st !! STORAGE_TODOS) as [raw|] eqn:E.
    + destruct (Hst raw eq_refl) as (l & -> & Hl).
      rewrite (loadTodos_stored l), as_Todos_js_of_Todos.
      * now intros [= <-].
      * unfold localStorage.getItem. now rewrite Hd, E.
    + rewrite loadTodos_absent.
      * intros [= <-]. apply NoDup_nil_2.
      * unfold localStorage.getItem. now rewrite Hd, E.
Qed.

Lemma saveTodos_stored (l : list Todo) (st : Storage) :
  NoDup (List.map id l) ->
  (forall raw, items st !! STORAGE_TODOS = Some raw ->
     exists l', raw = JSON.stringify l' /\ NoDup (List.map id l')) ->
  forall raw, items (saveTodos l st) !! STORAGE_TODOS = Some raw ->
    exists l', raw = JSON.stringify l' /\ NoDup (List.map id l').
Proof.
  intros Hl Hst raw. destruct (saveTodos_items l st) as [-> | ->]; [apply Hst|].
  cbn [items]. rewrite lookup_insert_eq. intros [= <-]. now exists l.
Qed.

Lemma saveDarkMode_stored (d : bool) (st : Storage) (raw : jsstring) :
  items (saveDarkMode d st) !! STORAGE_TODOS = Some raw ->
  items st !! STORAGE_TODOS = Some raw.
Proof.
  destruct (saveDarkMode_items d st) as [-> | ->]; [auto|].
  cbn [items]. rewrite lookup_insert_ne; [auto|].
  intros E. now apply STORAGE_keys_differ.
Qed.

Create HintDb store discriminated.
#[local] Hint Resolve saveTodos_stored saveDarkMode_stored : store.

Lemma mount_ids_distinct (st : Storage) (w : State * Storage) :
  (forall raw, items st !! STORAGE_TODOS = Some raw ->
     exists l, raw = JSON.stringify l /\ NoDup (List.map id l)) ->
  mount st = Some w ->
  NoDup (List.map id (todos (fst w)))
  /\ (forall raw, items (snd w) !! STORAGE_TODOS = Some raw ->
        exists l, raw = JSON.stringify l /\ NoDup (List.map id l)).
Proof.
  intros Hst. unfold mount. destruct (initialState st) as [s|] eqn:E; [|discriminate].
  intros [= <-]. cbn [fst snd].
  pose proof (initialState_ids_distinct st s Hst E) as Hs.
  split; [exact Hs|]. intros raw Hraw. apply saveDarkMode_stored in Hraw.
  revert raw Hraw. now apply saveTodos_stored.
Qed.

Lemma reachable_ids_distinct (w : State * Storage) :
  reachable w ->
  NoDup (List.map id (todos (fst w)))
  /\ (forall raw, items (snd w) !! STORAGE_TODOS = Some raw ->
        exists l, raw = JSON.stringify l /\ NoDup (List.map id l)).
Proof.
  induction 1 as [st w Hnone Hm | e w Hr (IH1 & IH2) Hf | w w' Hr (IH1 & IH2) Hm].
  - apply (mount_ids_distinct st w); [|exact Hm].
    intros raw Hraw. rewrite Hnone in Hraw. discriminate.
  - destruct w as [s st]. unfold step. cbn [fst snd] in *.
    pose proof (handle_ids_distinct e s IH1 Hf) as Hs. split; [exact Hs|].
    destruct e; cbn [run_effects]; try exact IH2;
      try destruct (trim (inputValue s)); eauto with store.
  - apply (mount_ids_distinct (snd w) w'); assumption.
Qed.

(** X2. With ids that are new when they are handed out, the ids of the
    list are pairwise distinct in every state the application reaches;
    [deleteTodo] then removes at most one item. *)
Theorem ids_stay_distinct (w : State * Storage) (i : jsstring) :
  reachable w ->
  NoDup (List.map id (todos (fst w)))
  /\ length (todos (fst w)) <= S (length (todos (deleteTodo i (fst w)))).
Proof.
  intros Hr. destruct (reachable_ids_distinct w Hr) as (H & _).
  split; [exact H|]. now apply deleteTodo_length.
Qed.

Lemma ids_stay_distinct_witness :
  NoDup (List.map id (todos (fst
    (step (Submit (js "c") (js "2024-01-03T00:00:00.000Z"))
       (step (Change (js "Water plants")) first_visit))))).
Proof.
  eapply (ids_stay_distinct _ (js "c")).
  apply reach_step; [apply reach_step; [|exact I]|].
  - apply (reach_visit cleared_storage); reflexivity.
  - vm_compute. intros [].
Defined.


(** ** Further properties *)

(** X3. A stored theme entry is read without any parsing that could fail:
    it means dark exactly when it is the text [true]; every other text
    means light. *)
Theorem theme_entry_text (q : option nat) (it : gmap (list N) (list N)) (raw : jsstring) :
  loadDarkMode (mkStorage false q (<[STORAGE_DARKMODE := raw]> it))
  = str_eqb raw (js "true")
  /\ loadDarkMode (mkStorage false q (<[STORAGE_DARKMODE := js "false"]> it)) = false
  /\ loadDarkMode (mkStorage false q (<[STORAGE_DARKMODE := js "yes"]> it)) = false.
Proof.
  assert (H : forall raw, loadDarkMode (mkStorage false q (<[STORAGE_DARKMODE := raw]> it))
                          = str_eqb raw (js "true")).
  { intros r. apply loadDarkMode_present. unfold localStorage.getItem. cbn [denied items].
    now rewrite lookup_insert_eq. }
  split; [apply H|]. split; rewrite H; reflexivity.
Qed.

Lemma run_state (events : list Event) (w : State * Storage) :
  fst (run events w) = fold_left (fun s e => handle e s) events (fst w).
Proof.
  revert w. induction events as [|e events IH]; intros w; [reflexivity|].
  unfold run in *. cbn [fold_left]. now rewrite IH.
Qed.

Lemma saveTodos_denied (l : list Todo) (st : Storage) :
  denied st = true -> saveTodos l st = st.
Proof. intros H. unfold saveTodos, localStorage.setItem. now rewrite H. Qed.

Lemma saveDarkMode_denied (d : bool) (st : Storage) :
  denied st = true -> saveDarkMode d st = st.
Proof. intros H. unfold saveDarkMode, localStorage.setItem. now rewrite H. Qed.

Lemma run_denied (events : list Event) (s : State) (st : Storage) :
  denied st = true -> snd (run events (s, st)) = st.
Proof.
  intros Hd. revert s. induction events as [|e events IH]; intros s; [reflexivity|].
  unfold run in *. cbn [fold_left]. unfold step at 2. cbn [fst snd].
  replace (run_effects e s (handle e s) st) with st; [apply IH|].
  destruct e; cbn [run_effects];
    rewrite ?saveTodos_denied, ?saveDarkMode_denied by assumption;
    try reflexivity.
  now destruct (trim (inputValue s)).
Qed.




(** A quota too small for the new list: the write is dropped, the state
    keeps the new item, and a reload brings back the stored, older
    list. *)
Example quota_exceeded :
  let st := mkStorage false (Some 40) ∅ in
  let w0 := (freshState, saveDarkMode true (saveTodos [] st)) in
  let w := run (fill_and_enter (js "Buy milk") (js "a")) w0 in
  mount st = Some w0
  /\ length (todos (fst w)) = 1
  /\ loadTodos (snd w) = JArray []
  /\ (fst <$> mount (snd w)) = Some freshState.
Proof. vm_compute. repeat split. Qed.


(** ** Submitting: [addTodo] and the key handler of the input *)

Lemma addTodo_blank (uuid now : jsstring) (s : State) :
  trim (inputValue s) = [] -> addTodo uuid now s = s.
Proof. intros E. unfold addTodo. now rewrite E. Qed.

Lemma addTodo_input_blank (uuid now : jsstring) (s : State) :
  trim (inputValue (addTodo uuid now s)) = [].
Proof.
  unfold addTodo. destruct (trim (inputValue s)) as [|c r] eqn:E; [exact E|reflexivity].
Qed.

Lemma addTodo_length (uuid now : jsstring) (s : State) :
  length (todos (addTodo uuid now s)) <= S (length (todos s)).
Proof.
  unfold addTodo. destruct (trim (inputValue s)) as [|c r]; [lia|].
  cbn [setInputValue setTodos todos]. rewrite length_app. simpl. lia.
Qed.

Lemma addTodo_counts (uuid now : jsstring) (s : State) :
  activeCount (addTodo uuid now s)
  = (if nonblank (inputValue s, uuid, now) then S (activeCount s) else activeCount s)
  /\ completedCount (addTodo uuid now s) = completedCount s.
Proof.
  unfold addTodo, nonblank, activeCount, completedCount. cbn [fst].
  destruct (trim (inputValue s)) as [|c r]; [now split|].
  cbn [setInputValue setTodos todos]. rewrite !List.filter_app, !length_app.
  cbn. split; lia.
Qed.

Lemma onKeyDowns_cons (key uuid now : jsstring) (presses : list KeyPress) (s : State) :
  onKeyDowns ((key, uuid, now) :: presses) s
  = onKeyDowns presses (if str_eqb key (js "Enter") then addTodo uuid now s else s).
Proof. reflexivity. Qed.

Lemma onKeyDowns_blank (presses : list KeyPress) (s : State) :
  trim (inputValue s) = [] -> onKeyDowns presses s = s.
Proof.
  intros E. induction presses as [|[[key uuid] now] presses IH]; [reflexivity|].
  rewrite onKeyDowns_cons. destruct (str_eqb key (js "Enter")); [|exact IH].
  now rewrite (addTodo_blank uuid now s E).
Qed.

Lemma onKeyDowns_once (presses : list KeyPress) (s : State) :
  onKeyDowns presses s = s
  \/ exists uuid now, In (js "Enter", uuid, now) presses
       /\ onKeyDowns presses s = addTodo uuid now s.
Proof.
  induction presses as [|[[key uuid] now] presses IH]; [now left|].
  rewrite onKeyDowns_cons. destruct (str_eqb key (js "Enter")) eqn:E.
  - right. exists uuid, now. apply str_eqb_eq in E. subst key. split; [now left|].
    apply onKeyDowns_blank, addTodo_input_blank.
  - destruct IH as [IH | (u & n & Hin & IH)]; [now left|].
    right. exists u, n. split; [now right | exact IH].
Qed.


(** ** The text of an item is trimmed and not empty *)

Lemma trimStart_fixed (s : jsstring) :
  (forall c r, s = c :: r -> is_whitespace c = false) -> trimStart s = s.
Proof.
  destruct s as [|c r]; [reflexivity|]. intros H. simpl.
  now rewrite (H c r eq_refl).
Qed.

Lemma trimEnd_fixed (s : jsstring) :
  (forall r c, s = r ++ [c] -> is_whitespace c = false) -> trimEnd s = s.
Proof.
  intros H. unfold trimEnd. rewrite trimStart_fixed; [apply rev_involutive|].
  intros c r E. apply (H (rev r) c).
  rewrite <- (rev_involutive s), E. reflexivity.
Qed.

Lemma trim_trim (s : jsstring) : trim (trim s) = trim s.
Proof.
  destruct (trim_spec s) as (pre & post & _ & _ & _ & H4 & H5).
  unfold trim at 1. rewrite (trimStart_fixed (trim s) H4).
  now apply trimEnd_fixed.
Qed.

Lemma handle_text_trimmed (e : Event) (s : State) :
  Forall (fun t => text t <> [] /\ trim (text t) = text t) (todos s) ->
  Forall (fun t => text t <> [] /\ trim (text t) = text t) (todos (handle e s)).
Proof.
  intros H. destruct e; cbn [handle]; try exact H.
  - unfold addTodo. destruct (trim (inputValue s)) as [|c r] eqn:E; [exact H|].
    cbn [setInputValue setTodos todos]. apply Forall_app. split; [exact H|].
    constructor; [|constructor]. cbn [text]. split; [discriminate|].
    rewrite <- E. apply trim_trim.
  - unfold toggleTodo, setTodos. cbn [todos]. apply List.Forall_map.
    eapply Forall_impl; [exact H|]. intros t Ht. cbn beta.
    now destruct (str_eqb (id t) id').
  - unfold deleteTodo, setTodos. cbn [todos]. rewrite List.Forall_forall in *.
    intros t Ht. apply filter_In in Ht. now apply H.
  - unfold clearCompleted, setTodos. cbn [todos]. rewrite List.Forall_forall in *.
    intros t Ht. apply filter_In in Ht. now apply H.
Qed.


(** ** Invariants of the list along a session

    A property of lists that holds of the empty list and that every
    handler keeps holds of the list of every state the application
    reaches, and of the list that the store holds. *)

Section Invariant.

Context (P : list Todo -> Prop).
Hypothesis P_nil : P [].
Hypothesis P_handle :
  forall e s, P (todos s) -> fresh e s -> P (todos (handle e s)).

Lemma initialState_invariant (st : Storage) (s : State) :
  (forall raw, items st !! STORAGE_TODOS = Some raw ->
     exists l, raw = JSON.stringify l /\ P l) ->
  initialState st = Some s -> P (todos s).
Proof.
  intros Hst. unfold initialState.
  destruct (localStorage.getItem STORAGE_TODOS st) as [[raw|]|e] eqn:G.
  - assert (G' : items st !! STORAGE_TODOS = Some raw).
    { unfold localStorage.getItem in G. destruct (denied st); [discriminate|].
      now injection G. }
    destruct (Hst raw G') as (l & -> & Hl).
    rewrite (loadTodos_stored l st G), as_Todos_js_of_Todos. now intros [= <-].
  - rewrite (loadTodos_absent st G). intros [= <-]. exact P_nil.
  - rewrite (loadTodos_failure st e).
    + intros [= <-]. exact P_nil.
    + unfold loadTodos_try. now rewrite G.
Qed.

Lemma saveTodos_invariant (l : list Todo) (st : Storage) :
  P l ->
  (forall raw, items st !! STORAGE_TODOS = Some raw ->
     exists l', raw = JSON.stringify l' /\ P l') ->
  forall raw, items (saveTodos l st) !! STORAGE_TODOS = Some raw ->
    exists l', raw = JSON.stringify l' /\ P l'.
Proof.
  intros Hl Hst raw. destruct (saveTodos_items l st) as [-> | ->]; [apply Hst|].
  cbn [items]. rewrite lookup_insert_eq. intros [= <-]. now exists l.
Qed.

Lemma mount_invariant (st : Storage) (w : State * Storage) :
  (forall raw, items st !! STORAGE_TODOS = Some raw ->
     exists l, raw = JSON.stringify l /\ P l) ->
  mount st = Some w ->
  P (todos (fst w))
  /\ (forall raw, items (snd w) !! STORAGE_TODOS = Some raw ->
        exists l, raw = JSON.stringify l /\ P l).
Proof.
  intros Hst. unfold mount. destruct (initialState st) as [s|] eqn:E; [|discriminate].
  intros [= <-]. cbn [fst snd].
  pose proof (initialState_invariant st s Hst E) as Hs.
  split; [exact Hs|]. intros raw Hraw. apply saveDarkMode_stored in Hraw.
  revert raw Hraw. now apply saveTodos_invariant.
Qed.

Lemma reachable_invariant (w : State * Storage) :
  reachable w ->
  P (todos (fst w))
  /\ (forall raw, items (snd w) !! STORAGE_TODOS = Some raw ->
        exists l, raw = JSON.stringify l /\ P l).
Proof.
  induction 1 as [st w Hnone Hm | e w Hr (IH1 & IH2) Hf | w w' Hr (IH1 & IH2) Hm].
  - apply (mount_invariant st w); [|exact Hm].
    intros raw Hraw. rewrite Hnone in Hraw. discriminate.
  - destruct w as [s st]. unfold step. cbn [fst snd] in *.
    pose proof (P_handle e s IH1 Hf) as Hs. split; [exact Hs|].
    destruct e; cbn [run_effects]; try exact IH2;
      try (now apply saveTodos_invariant).
    + destruct (trim (inputValue s)); [exact IH2 | now apply saveTodos_invariant].
    + intros raw Hraw. apply saveDarkMode_stored in Hraw. now apply IH2.
  - apply (mount_invariant (snd w) w'); assumption.
Qed.

End Invariant.

(** X8. In every state that the application reaches from a first visit,
    by events and page reloads, the text of every item is not empty and
    is its own trimmed form: it neither starts nor ends with white
    space.  The list that the store holds has the same property. *)
Theorem text_stays_trimmed (w : State * Storage) :
  reachable w ->
  Forall (fun t => text t <> [] /\ trim (text t) = text t) (todos (fst w))
  /\ (forall raw, items (snd w) !! STORAGE_TODOS = Some raw ->
        exists l, raw = JSON.stringify l
          /\ Forall (fun t => text t <> [] /\ trim (text t) = text t) l)
  /\ (forall t c r, In t (todos (fst w)) ->
        (text t = c :: r -> is_whitespace c = false)
        /\ (text t = r ++ [c] -> is_whitespace c = false)).
Proof.
  intros Hr.
  destruct (reachable_invariant
              (Forall (fun t => text t <> [] /\ trim (text t) = text t))
              (Forall_nil_2 _)
              (fun e s H _ => handle_text_trimmed e s H) w Hr) as (H1 & H2).
  split; [exact H1|]. split; [exact H2|].
  intros t c r Hin. rewrite List.Forall_forall in H1.
  destruct (H1 t Hin) as (_ & Ht).
  destruct (trim_spec (text t)) as (pre & post & _ & _ & _ & H4 & H5).
  rewrite Ht in H4, H5. split; [apply H4 | apply H5].
Qed.

Lemma text_stays_trimmed_witness :
  Forall (fun t => text t <> [] /\ trim (text t) = text t)
    (todos (fst (step (Submit (js "c") (js "2024-01-03T00:00:00.000Z"))
                   (step (Change (js "  Water plants ")) first_visit)))).
Proof.
  eapply text_stays_trimmed.
  apply reach_step; [apply reach_step; [|exact I]|].
  - apply (reach_visit cleared_storage); reflexivity.
  - vm_compute. intros [].
Defined.


(** ** The counters after each handler *)

Lemma filter_filter_comm {A} (p q : A -> bool) (l : list A) :
  List.filter p (List.filter q l) = List.filter q (List.filter p l).
Proof.
  induction l as [|a l IH]; [reflexivity|]. simpl.
  destruct (p a) eqn:Ep, (q a) eqn:Eq; simpl; rewrite ?Ep, ?Eq, IH; reflexivity.
Qed.

Lemma filter_none {A} (p : A -> bool) (l : list A) :
  (forall a, In a l -> p a = false) -> List.filter p l = [].
Proof.
  induction l as [|a l IH]; simpl; intros H; [reflexivity|].
  rewrite (H a) by now left. apply IH. intros b Hb. apply H. now right.
Qed.

Lemma filter_map_comm {A B} (f : A -> B) (p : B -> bool) (l : list A) :
  List.filter p (List.map f l) = List.map f (List.filter (fun a => p (f a)) l).
Proof.
  induction l as [|a l IH]; [reflexivity|]. simpl.
  destruct (p (f a)); simpl; now rewrite IH.
Qed.

Lemma clearCompleted_completed (s : State) :
  List.filter (fun todo => completed todo) (todos (clearCompleted s)) = [].
Proof.
  unfold clearCompleted, setTodos. cbn [todos]. apply filter_none.
  intros todo Hin. apply filter_In in Hin. destruct Hin as (_ & Hc).
  now destruct (completed todo).
Qed.

(** X9. After [clearCompleted] no item is completed and the active items
    are the ones of before: the counter of active items is unchanged,
    the list has lost as many items as were completed, the clear button
    is gone from the tree, the active view shows the whole list and the
    completed view is empty. *)
Theorem clearCompleted_counts (s : State) :
  completedCount (clearCompleted s) = 0
  /\ activeCount (clearCompleted s) = activeCount s
  /\ length (todos (clearCompleted s)) + completedCount s = length (todos s)
  /\ getAllByTestId (js "clear-completed") (App (clearCompleted s)) = []
  /\ filteredTodos (setFilter Active (clearCompleted s)) = todos (clearCompleted s)
  /\ filteredTodos (setFilter Completed (clearCompleted s)) = [].
Proof.
  assert (H0 : completedCount (clearCompleted s) = 0).
  { unfold completedCount. now rewrite clearCompleted_completed. }
  split; [exact H0|].
  split; [unfold activeCount, clearCompleted, setTodos; cbn [todos];
          now rewrite filter_idem|].
  split; [unfold completedCount, clearCompleted, setTodos; cbn [todos];
          apply filter_partition_length|].
  split; [|split].
  - rewrite clear_completed_query, Footer_query, H0.
    rewrite andb_false_r. now destruct (0 <? length (todos (clearCompleted s))).
  - unfold filteredTodos, setFilter, clearCompleted, setTodos. cbn [todos filter].
    rewrite bool_decide_eq_true_2 by reflexivity. apply filter_idem.
  - unfold filteredTodos, setFilter. cbn [todos filter].
    rewrite bool_decide_eq_false_2 by discriminate.
    rewrite bool_decide_eq_true_2 by reflexivity.
    apply clearCompleted_completed.
Qed.

Lemma unique_id_others (l1 l2 : list Todo) (t : Todo) :
  NoDup (List.map id (l1 ++ t :: l2)) ->
  forall x, In x l1 \/ In x l2 -> id x <> id t.
Proof.
  intros Hnd. rewrite List.map_app in Hnd. cbn [List.map] in Hnd.
  apply NoDup_app in Hnd. destruct Hnd as (_ & H1 & Hnd).
  apply NoDup_cons in Hnd. destruct Hnd as (H2 & _).
  intros x [Hx | Hx] E.
  - apply (H1 (id t)); [|left]. rewrite <- E. apply list_elem_of_In.
    now apply in_map.
  - apply H2. rewrite <- E. apply list_elem_of_In. now apply in_map.
Qed.

Lemma toggle_others (i : jsstring) (l : list Todo) :
  (forall x, In x l -> id x <> i) ->
  List.map (fun todo => if str_eqb (id todo) i then toggled todo else todo) l = l.
Proof.
  intros H. rewrite <- (List.map_id l) at 2. apply List.map_ext_in.
  intros x Hx. apply H, str_eqb_neq in Hx. now rewrite Hx.
Qed.

Lemma toggleTodo_present (s : State) (i : jsstring) (t : Todo) :
  NoDup (List.map id (todos s)) -> In t (todos s) -> id t = i ->
  exists l1 l2, todos s = l1 ++ t :: l2
    /\ todos (toggleTodo i s) = l1 ++ toggled t :: l2
    /\ todos (deleteTodo i s) = l1 ++ l2.
Proof.
  intros Hnd Hin Hi. destruct (in_split _ _ Hin) as (l1 & l2 & E).
  exists l1, l2. split; [exact E|]. rewrite E in Hnd.
  pose proof (unique_id_others l1 l2 t Hnd) as Ho. rewrite Hi in Ho.
  split.
  - unfold toggleTodo, setTodos. cbn [todos]. rewrite E, List.map_app.
    cbn [List.map]. rewrite (proj2 (str_eqb_eq (id t) i) Hi).
    rewrite !toggle_others by auto. reflexivity.
  - unfold deleteTodo, setTodos. cbn [todos]. rewrite E.
    now apply filter_unique_id.
Qed.

(** X10. The counters follow each change of an item.  With pairwise
    distinct ids, toggling an item moves one unit between the active
    and the completed count, and deleting it takes one off the count it
    belonged to; the other count stays. *)
Theorem counts_follow (s : State) (i : jsstring) (t : Todo) :
  NoDup (List.map id (todos s)) -> In t (todos s) -> id t = i ->
  (completed t = false ->
      S (activeCount (toggleTodo i s)) = activeCount s
      /\ completedCount (toggleTodo i s) = S (completedCount s)
      /\ S (activeCount (deleteTodo i s)) = activeCount s
      /\ completedCount (deleteTodo i s) = completedCount s)
  /\ (completed t = true ->
      activeCount (toggleTodo i s) = S (activeCount s)
      /\ S (completedCount (toggleTodo i s)) = completedCount s
      /\ activeCount (deleteTodo i s) = activeCount s
      /\ S (completedCount (deleteTodo i s)) = completedCount s).
Proof.
  intros Hnd Hin Hi.
  destruct (toggleTodo_present s i t Hnd Hin Hi) as (l1 & l2 & E & Et & Ed).
  unfold activeCount, completedCount. rewrite E, Et, Ed.
  rewrite !List.filter_app. cbn [List.filter toggled completed].
  split; intros Hc; rewrite Hc; cbn [negb]; rewrite !length_app; cbn [length];
    repeat split; lia.
Qed.

Lemma counts_follow_witness :
  S (activeCount (toggleTodo (js "a") sample_state)) = activeCount sample_state
  /\ S (completedCount (deleteTodo (js "b") sample_state)) = completedCount sample_state.
Proof.
  assert (Hnd : NoDup (List.map id (todos sample_state))).
  { apply (bool_decide_unpack (NoDup (List.map id (todos sample_state)))).
    vm_compute. exact I. }
  split.
  - destruct (counts_follow sample_state (js "a")
                (mkTodo (js "a") (js "Buy milk") false (js "2024-01-01T00:00:00.000Z")))
      as (H & _); [exact Hnd | now left | reflexivity |].
    now apply H.
  - destruct (counts_follow sample_state (js "b")
                (mkTodo (js "b") (js "Walk dog") true (js "2024-01-02T00:00:00.000Z")))
      as (_ & H); [exact Hnd | right; now left | reflexivity |].
    now apply H.
Defined.


(** ** How the handlers of the list compose *)

Lemma toggle_toggle_comm (i j : jsstring) (todo : Todo) :
  (fun t => if str_eqb (id t) i then toggled t else t)
    ((fun t => if str_eqb (id t) j then toggled t else t) todo)
  = (fun t => if str_eqb (id t) j then toggled t else t)
      ((fun t => if str_eqb (id t) i then toggled t else t) todo).
Proof.
  cbn beta.
  destruct (str_eqb (id todo) i) eqn:Ei, (str_eqb (id todo) j) eqn:Ej;
    cbn [toggled id]; rewrite ?Ei, ?Ej; reflexivity.
Qed.

Lemma deleteTodo_toggleTodo (i j : jsstring) (s : State) :
  deleteTodo i (toggleTodo j s) = toggleTodo j (deleteTodo i s).
Proof.
  unfold deleteTodo, toggleTodo, setTodos. cbn [todos darkMode filter inputValue].
  f_equal. rewrite filter_map_comm. f_equal. apply filter_ext. intros todo.
  now destruct (str_eqb (id todo) j).
Qed.

Lemma deleteTodo_after_toggle (i : jsstring) (s : State) :
  deleteTodo i (toggleTodo i s) = deleteTodo i s.
Proof.
  rewrite deleteTodo_toggleTodo. apply toggleTodo_absent.
  intros todo Hin. unfold deleteTodo, setTodos in Hin. cbn [todos] in Hin.
  apply filter_In in Hin. destruct Hin as (_ & Hi).
  apply negb_true_iff, str_eqb_neq in Hi. exact Hi.
Qed.

(** X11. Deleting twice is deleting once; deletions commute with each
    other, with toggles and with [clearCompleted]; toggles commute with
    each other; toggling an item and then deleting it is deleting it. *)
Theorem handlers_commute (s : State) (i j : jsstring) :
  deleteTodo i (deleteTodo i s) = deleteTodo i s
  /\ deleteTodo i (deleteTodo j s) = deleteTodo j (deleteTodo i s)
  /\ toggleTodo i (toggleTodo j s) = toggleTodo j (toggleTodo i s)
  /\ deleteTodo i (toggleTodo j s) = toggleTodo j (deleteTodo i s)
  /\ deleteTodo i (toggleTodo i s) = deleteTodo i s
  /\ clearCompleted (deleteTodo i s) = deleteTodo i (clearCompleted s).
Proof.
  split; [unfold deleteTodo, setTodos; cbn [todos darkMode filter inputValue];
          now rewrite filter_idem|].
  split; [unfold deleteTodo, setTodos; cbn [todos darkMode filter inputValue];
          f_equal; apply filter_filter_comm|].
  split; [unfold toggleTodo, setTodos; cbn [todos darkMode filter inputValue];
          f_equal; rewrite !List.map_map; apply List.map_ext;
          intros todo; apply toggle_toggle_comm|].
  split; [apply deleteTodo_toggleTodo|].
  split; [apply deleteTodo_after_toggle|].
  unfold clearCompleted, deleteTodo, setTodos. cbn [todos darkMode filter inputValue].
  f_equal. apply filter_filter_comm.
Qed.

(** ** What a handler may change *)

Lemma sublist_map {A B} (f : A -> B) (l1 l2 : list A) :
  sublist l1 l2 -> sublist (List.map f l1) (List.map f l2).
Proof. induction 1; cbn [List.map]; now constructor. Qed.

Lemma handle_ids_sublist (e : Event) (s : State) :
  sublist (List.map id (todos (handle e s)))
    (List.map id (todos s)
     ++ match e with Submit uuid _ => [uuid] | _ => [] end).
Proof.
  destruct e; cbn [handle];
    try (rewrite app_nil_r; apply sublist_map, filter_sublist);
    try (rewrite app_nil_r; reflexivity).
  - unfold addTodo. destruct (trim (inputValue s)) as [|c r].
    + now apply sublist_inserts_r.
    + cbn [setInputValue setTodos todos]. now rewrite List.map_app.
  - rewrite app_nil_r, toggleTodo_ids. reflexivity.
Qed.

Lemma handle_items (e : Event) (s : State) (t' : Todo) :
  In t' (todos (handle e s)) ->
  (exists t, In t (todos s)
     /\ id t' = id t /\ text t' = text t /\ createdAt t' = createdAt t
     /\ (completed t' = completed t \/ e = Toggle (id t)))
  \/ (exists uuid now,
        e = Submit uuid now /\ t' = mkTodo uuid (trim (inputValue s)) false now).
Proof.
  assert (Same : In t' (todos s) ->
            exists t, In t (todos s)
              /\ id t' = id t /\ text t' = text t /\ createdAt t' = createdAt t
              /\ (completed t' = completed t \/ e = Toggle (id t))).
  { intros Hin. exists t'. repeat split; auto. }
  destruct e; cbn [handle]; try (intros Hin; left; now apply Same).
  - unfold addTodo. destruct (trim (inputValue s)) as [|c r] eqn:E;
      [intros Hin; left; now apply Same|].
    cbn [setInputValue setTodos todos]. intros Hin. apply in_app_or in Hin.
    destruct Hin as [Hin | [<- | []]]; [left; now apply Same|].
    right. now exists uuid, now.
  - unfold toggleTodo, setTodos. cbn [todos]. intros Hin.
    apply in_map_iff in Hin. destruct Hin as (t & <- & Hin). left. exists t.
    split; [exact Hin|].
    destruct (str_eqb (id t) id') eqn:Ei; cbn [toggled id text createdAt completed];
      repeat split; auto.
    right. apply str_eqb_eq in Ei. now rewrite Ei.
  - unfold deleteTodo, setTodos. cbn [todos]. intros Hin.
    apply filter_In in Hin. left. now apply Same.
  - unfold clearCompleted, setTodos. cbn [todos]. intros Hin.
    apply filter_In in Hin. left. now apply Same.
Qed.

(** X12. No handler reorders the list or edits an item.  The ids after an
    event are the ids of before, in order, with some left out or the new
    id at the end.  Every item of the new list is an item of the old
    one with the same id, text and creation time, and with the same
    completion flag unless the event toggles it, or else it is the item
    that the submission creates.  The theme changes only by its toggle
    and the filter only by a tab. *)
Theorem handle_keeps_items (e : Event) (s : State) :
  sublist (List.map id (todos (handle e s)))
    (List.map id (todos s)
     ++ match e with Submit uuid _ => [uuid] | _ => [] end)
  /\ (forall t', In t' (todos (handle e s)) ->
        (exists t, In t (todos s)
           /\ id t' = id t /\ text t' = text t /\ createdAt t' = createdAt t
           /\ (completed t' = completed t \/ e = Toggle (id t)))
        \/ (exists uuid now,
              e = Submit uuid now
              /\ t' = mkTodo uuid (trim (inputValue s)) false now))
  /\ darkMode (handle e s)
     = match e with ToggleTheme => negb (darkMode s) | _ => darkMode s end
  /\ filter (handle e s)
     = match e with SetFilter f => f | _ => filter s end.
Proof.
  split; [apply handle_ids_sublist|]. split; [apply handle_items|].
  split; destruct e; cbn [handle]; try reflexivity;
    unfold addTodo; now destruct (trim (inputValue s)).
Qed.


(** ** The controls of the page *)

(** Comparisons of two string literals are computed. *)
Ltac eval_str_eqb :=
  repeat match goal with
  | |- context [str_eqb ?a ?b] =>
      let v := eval vm_compute in (str_eqb a b) in
      first [constr_eq v true | constr_eq v false];
      change (str_eqb a b) with v
  end.

Lemma Header_query (s : State) (name : jsstring) :
  getAllByTestId name (Header s)
  = if str_eqb (js "theme-toggle") name
    then [Element "button"
            [("aria-label"%string,
              if darkMode s then js "Switch to light mode"
              else js "Switch to dark mode");
             testid "theme-toggle"] []]
    else [].
Proof.
  unfold Header. rewrite !getAllByTestId_Element.
  cbn [flat_map getAllByTestId has_testid existsb testid fst snd app
       String.eqb Ascii.eqb Bool.eqb andb orb].
  rewrite orb_false_r. now destruct (str_eqb (js "theme-toggle") name).
Qed.

Lemma Input_query (s : State) (name : jsstring) :
  getAllByTestId name (Input s)
  = (if str_eqb (js "todo-input") name
     then [Element "input"
            [("type"%string, js "text"); ("value"%string, inputValue s);
             ("placeholder"%string, js "What needs to be done?");
             testid "todo-input"] []]
     else [])
    ++ (if str_eqb (js "add-button") name
        then [Element "button" [testid "add-button"] [TextNode (js "Add")]]
        else []).
Proof.
  unfold Input. rewrite !getAllByTestId_Element.
  cbn [flat_map getAllByTestId has_testid existsb testid fst snd app
       String.eqb Ascii.eqb Bool.eqb andb orb].
  rewrite !orb_false_r.
  now destruct (str_eqb (js "todo-input") name), (str_eqb (js "add-button") name).
Qed.

Lemma FilterTabs_query (name : jsstring) :
  getAllByTestId name FilterTabs
  = flat_map (fun f => if str_eqb (js "filter-" ++ Filter_text f) name
                       then [filter_tab f] else [])
      [All; Active; Completed].
Proof.
  unfold FilterTabs. rewrite getAllByTestId_Element.
  cbn [has_testid existsb app List.map flat_map]. unfold filter_tab.
  rewrite !getAllByTestId_Element.
  cbn [flat_map getAllByTestId has_testid existsb fst snd app
       String.eqb Ascii.eqb Bool.eqb andb orb].
  rewrite !orb_false_r, !app_nil_r. reflexivity.
Qed.

Lemma App_root (s : State) (name : jsstring) :
  has_testid name (App s) = str_eqb (js "app") name.
Proof.
  unfold App.
  cbn [has_testid existsb testid fst snd String.eqb Ascii.eqb Bool.eqb andb orb].
  now rewrite orb_false_r.
Qed.

Lemma todo_item_parts (name : jsstring) (todo : Todo) :
  getAllByTestId name (todo_item todo)
  = (if str_eqb (js "todo-item") name then [todo_item todo] else [])
    ++ (if str_eqb (js "todo-checkbox") name
        then [Element "button"
                [("aria-label"%string,
                  if completed todo then js "Mark incomplete" else js "Mark complete");
                 testid "todo-checkbox"] []]
        else [])
    ++ (if str_eqb (js "delete-button") name
        then [Element "button"
                [("aria-label"%string, js "Delete todo"); testid "delete-button"] []]
        else []).
Proof.
  unfold todo_item. rewrite !getAllByTestId_Element.
  cbn [flat_map getAllByTestId has_testid existsb testid fst snd app
       String.eqb Ascii.eqb Bool.eqb andb orb].
  rewrite !orb_false_r.
  now destruct (str_eqb (js "todo-item") name), (str_eqb (js "todo-checkbox") name),
    (str_eqb (js "delete-button") name).
Qed.

Lemma TodoListCard_parts (s : State) (name : jsstring) :
  getAllByTestId name (TodoListCard s)
  = if length (filteredTodos s) =? 0
    then (if str_eqb (js "empty-state") name
          then [Element "div" [testid "empty-state"]
                  [ Element "div" [] [TextNode [0x2713%N]];
                    Element "p" [] [TextNode (emptyMessage s)] ]]
          else [])
    else (if str_eqb (js "todo-list") name
          then [Element "ul" [testid "todo-list"] (List.map todo_item (filteredTodos s))]
          else [])
         ++ flat_map (getAllByTestId name) (List.map todo_item (filteredTodos s)).
Proof.
  unfold TodoListCard. rewrite getAllByTestId_Element.
  cbn [has_testid existsb flat_map app].
  destruct (length (filteredTodos s) =? 0); rewrite !getAllByTestId_Element.
  - cbn [flat_map getAllByTestId has_testid existsb testid fst snd app
         String.eqb Ascii.eqb Bool.eqb andb orb].
    rewrite !orb_false_r. now destruct (str_eqb (js "empty-state") name).
  - cbn [has_testid existsb testid fst snd app
         String.eqb Ascii.eqb Bool.eqb andb orb].
    rewrite !orb_false_r, app_nil_r. reflexivity.
Qed.

(** The elements under a test id that only the rows carry: one per
    row. *)
Lemma rows_query (s : State) (name : jsstring) :
  str_eqb (js "app") name = false -> str_eqb (js "theme-toggle") name = false ->
  str_eqb (js "todo-input") name = false -> str_eqb (js "add-button") name = false ->
  getAllByTestId name FilterTabs = [] ->
  str_eqb (js "empty-state") name = false -> str_eqb (js "todo-list") name = false ->
  getAllByTestId name (Footer s) = [] ->
  getAllByTestId name (App s)
  = flat_map (getAllByTestId name) (List.map todo_item (filteredTodos s)).
Proof.
  intros H1 H2 H3 H4 H5 H6 H7 H8.
  rewrite App_query, App_root, Header_query, Input_query, TodoListCard_parts.
  rewrite H1, H2, H3, H4, H5, H6, H7, H8. cbn [app].
  destruct (length (filteredTodos s) =? 0) eqn:E.
  - apply Nat.eqb_eq, length_zero_iff_nil in E. rewrite E.
    now destruct (0 <? length (todos s)).
  - destruct (0 <? length (todos s)); now rewrite app_nil_r.
Qed.

Lemma flat_map_singleton {A B C} (f : B -> list C) (h : A -> B) (g : A -> C)
    (l : list A) :
  (forall a, f (h a) = [g a]) -> flat_map f (List.map h l) = List.map g l.
Proof.
  intros H. induction l as [|a l IH]; [reflexivity|].
  cbn [flat_map List.map]. now rewrite H, IH.
Qed.

Lemma checkbox_query (s : State) :
  getAllByTestId (js "todo-checkbox") (App s)
  = List.map (fun todo =>
      Element "button"
        [("aria-label"%string,
          if completed todo then js "Mark incomplete" else js "Mark complete");
         testid "todo-checkbox"] []) (filteredTodos s).
Proof.
  rewrite rows_query by (rewrite ?FilterTabs_query, ?Footer_query; reflexivity).
  apply flat_map_singleton. intros todo.
  rewrite todo_item_parts. reflexivity.
Qed.

Lemma delete_button_query (s : State) :
  getAllByTestId (js "delete-button") (App s)
  = List.map (fun todo =>
      Element "button"
        [("aria-label"%string, js "Delete todo"); testid "delete-button"] [])
      (filteredTodos s).
Proof.
  rewrite rows_query by (rewrite ?FilterTabs_query, ?Footer_query; reflexivity).
  apply flat_map_singleton. intros todo.
  rewrite todo_item_parts. reflexivity.
Qed.

Lemma todo_item_query_App (s : State) :
  getAllByTestId (js "todo-item") (App s) = List.map todo_item (filteredTodos s).
Proof.
  rewrite rows_query by (rewrite ?FilterTabs_query, ?Footer_query; reflexivity).
  apply todo_items_rows.
Qed.

Ltac each_name :=
  repeat match goal with
  | |- Forall _ (_ :: _) => apply List.Forall_cons
  | |- Forall _ [] => apply List.Forall_nil
  end.

Lemma single_controls (s : State) :
  Forall (fun name => length (getAllByTestId (js name) (App s)) = 1)
    ["app"; "theme-toggle"; "todo-input"; "add-button";
     "filter-all"; "filter-active"; "filter-completed"]%string.
Proof.
  each_name;
    rewrite App_query, App_root, Header_query, Input_query, FilterTabs_query,
      TodoListCard_query, Footer_query by (vm_compute; discriminate);
    cbn [flat_map]; eval_str_eqb; cbn [app andb length];
    now destruct (0 <? length (todos s)).
Qed.

Lemma list_or_empty_state (s : State) :
  length (getAllByTestId (js "empty-state") (App s))
  + length (getAllByTestId (js "todo-list") (App s)) = 1.
Proof.
  rewrite !App_query, !App_root, !Header_query, !Input_query, !FilterTabs_query,
    !TodoListCard_parts, !Footer_query.
  rewrite !todo_items_query by (vm_compute; discriminate).
  cbn [flat_map]. eval_str_eqb. cbn [app andb length].
  destruct (length (filteredTodos s) =? 0), (0 <? length (todos s)); reflexivity.
Qed.

(** X13. Every control of the page is found under its test id.  In every
    state there is exactly one root, theme toggle, input field, add
    button and tab per filter, and either the empty-state block or the
    list, never both; every row of the list has its own checkbox and
    its own delete button; the footer, its counter and its clear button
    occur at most once. *)
Theorem controls_addressable (s : State) :
  Forall (fun name => length (getAllByTestId (js name) (App s)) = 1)
    ["app"; "theme-toggle"; "todo-input"; "add-button";
     "filter-all"; "filter-active"; "filter-completed"]%string
  /\ length (getAllByTestId (js "empty-state") (App s))
     + length (getAllByTestId (js "todo-list") (App s)) = 1
  /\ length (getAllByTestId (js "todo-item") (App s)) = length (filteredTodos s)
  /\ length (getAllByTestId (js "todo-checkbox") (App s)) = length (filteredTodos s)
  /\ length (getAllByTestId (js "delete-button") (App s)) = length (filteredTodos s)
  /\ Forall (fun name => length (getAllByTestId (js name) (App s)) <= 1)
       ["todo-footer"; "active-count"; "clear-completed"]%string.
Proof.
  split; [apply single_controls|]. split; [apply list_or_empty_state|].
  split; [now rewrite todo_item_query_App, length_map|].
  split; [now rewrite checkbox_query, length_map|].
  split; [now rewrite delete_button_query, length_map|].
  each_name;
    rewrite App_query, App_root, Header_query, Input_query, FilterTabs_query,
      TodoListCard_query, Footer_query by (vm_compute; discriminate);
    cbn [flat_map]; eval_str_eqb; cbn [app andb length];
    destruct (0 <? length (todos s)), (0 <? completedCount s); cbn [length]; lia.
Qed.

(** ** What the rows and the theme show *)

Lemma textContent_todo_item (todo : Todo) : textContent (todo_item todo) = text todo.
Proof.
  unfold todo_item. cbn [textContent flat_map app]. now rewrite !app_nil_r.
Qed.

Lemma todo_input_query (s : State) :
  getAllByTestId (js "todo-input") (App s)
  = [Element "input"
       [("type"%string, js "text"); ("value"%string, inputValue s);
        ("placeholder"%string, js "What needs to be done?");
        testid "todo-input"] []].
Proof.
  rewrite App_query, App_root, Header_query, Input_query, FilterTabs_query,
    TodoListCard_query, Footer_query by (vm_compute; discriminate).
  cbn [flat_map]. eval_str_eqb. cbn [app andb].
  now destruct (0 <? length (todos s)).
Qed.

(** X14. Each row shows its item: the text of a row is the text of the
    item, and the label of its checkbox offers to mark it incomplete
    exactly when it is completed.  The input field shows the input
    value of the state. *)
Theorem rows_show_items (s : State) :
  List.map textContent (getAllByTestId (js "todo-item") (App s))
  = List.map text (filteredTodos s)
  /\ List.map (getAttribute "aria-label") (getAllByTestId (js "todo-checkbox") (App s))
     = List.map (fun todo =>
         Some (if completed todo then js "Mark incomplete" else js "Mark complete"))
         (filteredTodos s)
  /\ List.map (getAttribute "aria-label") (getAllByTestId (js "delete-button") (App s))
     = List.map (fun todo => Some (js "Delete todo")) (filteredTodos s)
  /\ List.map (getAttribute "value") (getAllByTestId (js "todo-input") (App s))
     = [Some (inputValue s)].
Proof.
  split; [|split; [|split]].
  - rewrite todo_item_query_App, List.map_map. apply List.map_ext.
    apply textContent_todo_item.
  - rewrite checkbox_query, List.map_map. reflexivity.
  - rewrite delete_button_query, List.map_map. reflexivity.
  - rewrite todo_input_query. reflexivity.
Qed.

Lemma app_root_query (s : State) : getAllByTestId (js "app") (App s) = [App s].
Proof.
  rewrite App_query, App_root, Header_query, Input_query, FilterTabs_query,
    TodoListCard_query, Footer_query by (vm_compute; discriminate).
  cbn [flat_map]. eval_str_eqb. cbn [app andb].
  now destruct (0 <? length (todos s)).
Qed.

Lemma theme_toggle_query (s : State) :
  getAllByTestId (js "theme-toggle") (App s)
  = [Element "button"
       [("aria-label"%string,
         if darkMode s then js "Switch to light mode" else js "Switch to dark mode");
        testid "theme-toggle"] []].
Proof.
  rewrite App_query, App_root, Header_query, Input_query, FilterTabs_query,
    TodoListCard_query, Footer_query by (vm_compute; discriminate).
  cbn [flat_map]. eval_str_eqb. cbn [app andb].
  now destruct (0 <? length (todos s)).
Qed.

Lemma toggleDarkMode_twice (s : State) : toggleDarkMode (toggleDarkMode s) = s.
Proof.
  destruct s as [l d f v]. unfold toggleDarkMode, setDarkMode.
  cbn [todos darkMode filter inputValue]. now rewrite negb_involutive.
Qed.

(** X15. The root of the page carries the theme of the state as the text
    of [data-darkmode], and the label of the theme toggle names the
    other theme.  [toggleDarkMode] flips the theme and nothing else, so
    the rows of the page stay; applied twice it gives the state
    back. *)
Theorem theme_shown (s : State) :
  List.map (getAttribute "data-darkmode") (getAllByTestId (js "app") (App s))
  = [Some (if darkMode s then js "true" else js "false")]
  /\ List.map (getAttribute "aria-label") (getAllByTestId (js "theme-toggle") (App s))
     = [Some (if darkMode s then js "Switch to light mode"
              else js "Switch to dark mode")]
  /\ List.map (getAttribute "data-darkmode")
       (getAllByTestId (js "app") (App (toggleDarkMode s)))
     = [Some (if darkMode s then js "false" else js "true")]
  /\ toggleDarkMode (toggleDarkMode s) = s
  /\ todos (toggleDarkMode s) = todos s
  /\ filter (toggleDarkMode s) = filter s
  /\ inputValue (toggleDarkMode s) = inputValue s
  /\ getAllByTestId (js "todo-item") (App (toggleDarkMode s))
     = getAllByTestId (js "todo-item") (App s).
Proof.
  split; [now rewrite app_root_query|].
  split; [now rewrite theme_toggle_query|].
  split; [rewrite app_root_query; cbn [List.map getAttribute App];
          unfold toggleDarkMode, setDarkMode; cbn [darkMode]; now destruct (darkMode s)|].
  split; [apply toggleDarkMode_twice|].
  do 3 (split; [reflexivity|]). now rewrite !todo_item_query_App.
Qed.


(** ** The two entries of the store *)

Lemma saveTodos_cases (l : list Todo) (st : Storage) :
  saveTodos l st = st
  \/ (denied st = false
      /\ localStorage.getItem STORAGE_TODOS (saveTodos l st)
         = Ok (Some (JSON.stringify l))
      /\ saveTodos l st
         = mkStorage false (quota st) (<[STORAGE_TODOS := JSON.stringify l]> (items st))).
Proof.
  unfold saveTodos. destruct (localStorage.setItem _ _ st) as [st'|e] eqn:E; [|now left].
  right. cbn [try_catch]. split; [|split].
  - now apply setItem_Ok in E.
  - eapply getItem_setItem, E.
  - now apply setItem_Ok in E.
Qed.

Lemma saveDarkMode_cases (d : bool) (st : Storage) :
  saveDarkMode d st = st
  \/ (denied st = false
      /\ localStorage.getItem STORAGE_DARKMODE (saveDarkMode d st)
         = Ok (Some (String_boolean d))
      /\ saveDarkMode d st
         = mkStorage false (quota st)
             (<[STORAGE_DARKMODE := String_boolean d]> (items st))).
Proof.
  unfold saveDarkMode. destruct (localStorage.setItem _ _ st) as [st'|e] eqn:E; [|now left].
  right. cbn [try_catch]. split; [|split].
  - now apply setItem_Ok in E.
  - eapply getItem_setItem, E.
  - now apply setItem_Ok in E.
Qed.

Lemma saveTodos_other (l : list Todo) (st : Storage) (k : jsstring) :
  k <> STORAGE_TODOS ->
  denied (saveTodos l st) = denied st /\ quota (saveTodos l st) = quota st
  /\ items (saveTodos l st) !! k = items st !! k.
Proof.
  intros Hk. destruct (saveTodos_cases l st) as [-> | (Hd & _ & ->)]; [auto|].
  cbn [denied quota items]. rewrite lookup_insert_ne by congruence. auto.
Qed.

Lemma saveDarkMode_other (d : bool) (st : Storage) (k : jsstring) :
  k <> STORAGE_DARKMODE ->
  denied (saveDarkMode d st) = denied st /\ quota (saveDarkMode d st) = quota st
  /\ items (saveDarkMode d st) !! k = items st !! k.
Proof.
  intros Hk. destruct (saveDarkMode_cases d st) as [-> | (Hd & _ & ->)]; [auto|].
  cbn [denied quota items]. rewrite lookup_insert_ne by congruence. auto.
Qed.

Lemma getItem_same (k : jsstring) (st st' : Storage) :
  denied st' = denied st -> items st' !! k = items st !! k ->
  localStorage.getItem k st' = localStorage.getItem k st.
Proof. intros Hd Hi. unfold localStorage.getItem. now rewrite Hd, Hi. Qed.

(** X16. The list and the theme are two entries that do not touch each
    other: saving the list leaves what [loadDarkMode] returns, saving
    the theme leaves what [loadTodos] returns, on any store.  A save
    is all or nothing: either the store is as before, or the next load
    returns exactly what was saved. *)
Theorem saves_independent (l : list Todo) (d : bool) (st : Storage) :
  loadDarkMode (saveTodos l st) = loadDarkMode st
  /\ loadTodos (saveDarkMode d st) = loadTodos st
  /\ items (saveTodos l st) !! STORAGE_DARKMODE = items st !! STORAGE_DARKMODE
  /\ items (saveDarkMode d st) !! STORAGE_TODOS = items st !! STORAGE_TODOS
  /\ (saveTodos l st = st \/ loadTodos (saveTodos l st) = js_of_Todos l)
  /\ (saveDarkMode d st = st \/ loadDarkMode (saveDarkMode d st) = d).
Proof.
  assert (Hne : STORAGE_DARKMODE <> STORAGE_TODOS).
  { intros E. now apply STORAGE_keys_differ. }
  destruct (saveTodos_other l st STORAGE_DARKMODE Hne) as (T1 & _ & T3).
  destruct (saveDarkMode_other d st STORAGE_TODOS STORAGE_keys_differ) as (D1 & _ & D3).
  split; [unfold loadDarkMode, loadDarkMode_try; now rewrite (getItem_same _ _ _ T1 T3)|].
  split; [unfold loadTodos, loadTodos_try; now rewrite (getItem_same _ _ _ D1 D3)|].
  split; [exact T3|]. split; [exact D3|]. split.
  - destruct (saveTodos_cases l st) as [E | (_ & G & _)]; [now left|].
    right. now apply loadTodos_stored.
  - destruct (saveDarkMode_cases d st) as [E | (_ & G & _)]; [now left|].
    right. now apply loadDarkMode_stored.
Qed.

(** ** The store along a session *)

Lemma step_other_keys (e : Event) (w : State * Storage) (k : jsstring) :
  k <> STORAGE_TODOS -> k <> STORAGE_DARKMODE ->
  denied (snd (step e w)) = denied (snd w) /\ quota (snd (step e w)) = quota (snd w)
  /\ items (snd (step e w)) !! k = items (snd w) !! k.
Proof.
  intros H1 H2. destruct w as [s st]. unfold step. cbn [fst snd].
  destruct e; cbn [run_effects]; auto using saveTodos_other, saveDarkMode_other.
  destruct (trim (inputValue s)); auto using saveTodos_other.
Qed.

Lemma saveTodos_keeps (l : list Todo) (st : Storage) (k : jsstring) :
  is_Some (items st !! k) -> is_Some (items (saveTodos l st) !! k).
Proof.
  intros H. destruct (saveTodos_cases l st) as [-> | (_ & _ & ->)]; [exact H|].
  cbn [items]. destruct (decide (STORAGE_TODOS = k)) as [<- | Hk].
  - rewrite lookup_insert_eq. eauto.
  - now rewrite lookup_insert_ne.
Qed.

Lemma saveDarkMode_keeps (d : bool) (st : Storage) (k : jsstring) :
  is_Some (items st !! k) -> is_Some (items (saveDarkMode d st) !! k).
Proof.
  intros H. destruct (saveDarkMode_cases d st) as [-> | (_ & _ & ->)]; [exact H|].
  cbn [items]. destruct (decide (STORAGE_DARKMODE = k)) as [<- | Hk].
  - rewrite lookup_insert_eq. eauto.
  - now rewrite lookup_insert_ne.
Qed.

Lemma step_keeps (e : Event) (w : State * Storage) (k : jsstring) :
  is_Some (items (snd w) !! k) -> is_Some (items (snd (step e w)) !! k).
Proof.
  intros H. destruct w as [s st]. unfold step. cbn [fst snd] in *.
  destruct e; cbn [run_effects]; auto using saveTodos_keeps, saveDarkMode_keeps.
  destruct (trim (inputValue s)); auto using saveTodos_keeps.
Qed.

(** X17. The application writes its two entries and nothing else: along
    any session every other entry of the store is what it was, no
    entry is ever removed, and the store stays as accessible and as
    limited as it was. *)
Theorem writes_own_keys (events : list Event) (w : State * Storage) (k : jsstring) :
  k <> STORAGE_TODOS -> k <> STORAGE_DARKMODE ->
  items (snd (run events w)) !! k = items (snd w) !! k
  /\ denied (snd (run events w)) = denied (snd w)
  /\ quota (snd (run events w)) = quota (snd w)
  /\ (forall k', is_Some (items (snd w) !! k') ->
        is_Some (items (snd (run events w)) !! k')).
Proof.
  intros H1 H2. revert w. induction events as [|e events IH]; intros w.
  - repeat split; auto.
  - unfold run in *. cbn [fold_left].
    destruct (IH (step e w)) as (I1 & I2 & I3 & I4).
    destruct (step_other_keys e w k H1 H2) as (S1 & S2 & S3).
    rewrite I1, I2, I3. repeat split; auto.
    intros k' Hk'. apply I4. now apply step_keeps.
Qed.

Lemma writes_own_keys_witness :
  items (snd (run sample_events
                (freshState, mkStorage false None {[ js "other" := js "kept" ]})))
    !! js "other"
  = Some (js "kept").
Proof.
  destruct (writes_own_keys sample_events
              (freshState, mkStorage false None {[ js "other" := js "kept" ]})
              (js "other")) as (H & _).
  - vm_compute. discriminate.
  - vm_compute. discriminate.
  - rewrite H. cbn [snd items]. apply lookup_singleton_eq.
Defined.

(** ** A list entry that does not parse *)

(** X18. A list entry that does not parse is lost when the page loads:
    the state starts with the empty list and, on a store that takes the
    write, the effect of the first render replaces the entry by the
    text of the empty list.  The theme is read and written back as
    usual. *)
Theorem corrupt_entry_overwritten (st : Storage) (raw : jsstring) (e : exn) :
  denied st = false -> quota st = None ->
  items st !! STORAGE_TODOS = Some raw -> JSON.parse raw = Throw e ->
  mount st
  = Some (mkState [] (loadDarkMode st) All [],
          mkStorage false None
            (<[STORAGE_DARKMODE := String_boolean (loadDarkMode st)]>
               (<[STORAGE_TODOS := js "[]"]> (items st))))
  /\ forall w, mount st = Some w ->
       items (snd w) !! STORAGE_TODOS = Some (js "[]")
       /\ loadTodos (snd w) = JArray [].
Proof.
  intros Hd Hq Hraw Hp.
  assert (Hl : loadTodos st = JArray []).
  { apply (loadTodos_unparseable st raw e); [|exact Hp].
    unfold localStorage.getItem. now rewrite Hd, Hraw. }
  assert (Hm : mount st
    = Some (mkState [] (loadDarkMode st) All [],
            mkStorage false None
              (<[STORAGE_DARKMODE := String_boolean (loadDarkMode st)]>
                 (<[STORAGE_TODOS := js "[]"]> (items st))))).
  { unfold mount, initialState. rewrite Hl.
    change (as_Todos (JArray [])) with (Some (@nil Todo)). cbn [todos darkMode].
    rewrite saveTodos_working by assumption.
    rewrite saveDarkMode_working by reflexivity. reflexivity. }
  split; [exact Hm|]. intros w Hw. rewrite Hm in Hw. injection Hw as <-.
  cbn [snd items]. split.
  - rewrite lookup_insert_ne; [apply lookup_insert_eq|].
    intros E. now apply STORAGE_keys_differ.
  - apply (loadTodos_stored []). unfold localStorage.getItem. cbn [denied items].
    rewrite lookup_insert_ne; [now rewrite lookup_insert_eq|].
    intros E. now apply STORAGE_keys_differ.
Qed.

Lemma corrupt_entry_overwritten_witness :
  mount corrupt_storage
  = Some (freshState,
          mkStorage false None
            (<[STORAGE_DARKMODE := js "true"]>
               (<[STORAGE_TODOS := js "[]"]> (items corrupt_storage)))).
Proof.
  apply (corrupt_entry_overwritten corrupt_storage (js "[{oops") SyntaxError);
    reflexivity.
Defined.


(** ** The console listener of the tests *)

Lemma on_console_fold (emitted : list ConsoleMessage.t) (errors : list jsstring) :
  fold_left (fun errors msg => on_console msg errors) emitted errors
  = errors
    ++ List.map ConsoleMessage.text
         (List.filter (fun msg => str_eqb (ConsoleMessage.type msg) (js "error")) emitted).
Proof.
  revert errors. induction emitted as [|msg emitted IH]; intros errors.
  - cbn. now rewrite app_nil_r.
  - cbn [fold_left List.filter]. rewrite IH. unfold on_console.
    destruct (str_eqb (ConsoleMessage.type msg) (js "error")); [|reflexivity].
    cbn [List.map]. now rewrite <- app_assoc.
Qed.

Lemma checkErrors_cases (errors : list jsstring) :
  checkErrors errors
  = match errors with
    | [] => Returns
    | _ :: _ =>
        Throws (mkError (js "Console errors detected:" ++ [10%N] ++ join [10%N] errors))
    end.
Proof. now destruct errors. Qed.

Lemma checkErrors_Returns (errors : list jsstring) :
  checkErrors errors = Returns <-> errors = [].
Proof. rewrite checkErrors_cases. now destruct errors. Qed.

Lemma filter_nil_iff {A} (p : A -> bool) (l : list A) :
  List.filter p l = [] <-> forall a, In a l -> p a = false.
Proof.
  split; [|apply filter_none].
  intros E a Hin. destruct (p a) eqn:Ep; [|reflexivity].
  assert (Ha : In a (List.filter p l)) by now apply filter_In.
  rewrite E in Ha. destruct Ha.
Qed.

(** X19. The function that [assertNoConsoleErrors] returns throws exactly
    when the page has emitted a console event of type [error] since the
    listener was set up.  The message of the error lists the texts of
    those events, in the order of emission, one per line; events of any
    other type change nothing. *)
Theorem assertNoConsoleErrors_reports (emitted : list ConsoleMessage.t) :
  assertNoConsoleErrors emitted
  = match List.map ConsoleMessage.text
            (List.filter (fun msg => str_eqb (ConsoleMessage.type msg) (js "error"))
               emitted) with
    | [] => Returns
    | first :: rest =>
        Throws (mkError (js "Console errors detected:" ++ [10%N]
                         ++ join [10%N] (first :: rest)))
    end
  /\ (assertNoConsoleErrors emitted = Returns
      <-> forall msg, In msg emitted -> ConsoleMessage.type msg <> js "error")
  /\ (forall before msg after,
        ConsoleMessage.type msg <> js "error" ->
        assertNoConsoleErrors (before ++ msg :: after)
        = assertNoConsoleErrors (before ++ after)).
Proof.
  assert (E : forall l, assertNoConsoleErrors l
            = checkErrors (List.map ConsoleMessage.text
                (List.filter (fun msg => str_eqb (ConsoleMessage.type msg) (js "error")) l))).
  { intros l. unfold assertNoConsoleErrors. now rewrite on_console_fold. }
  split; [rewrite E, checkErrors_cases; now destruct (List.map _ _)|]. split.
  - rewrite E, checkErrors_Returns. split.
    + intros H msg Hin. apply str_eqb_neq.
      revert msg Hin. apply filter_nil_iff. now apply map_eq_nil in H.
    + intros H. rewrite (proj2 (filter_nil_iff _ emitted)); [reflexivity|].
      intros msg Hin. now apply str_eqb_neq, H.
  - intros before msg after H. rewrite !E, !List.filter_app. cbn [List.filter].
    apply str_eqb_neq in H. now rewrite H.
Qed.

(** ** What the application writes to the console *)

Lemma Logged_loadTodos (st : Storage) : fst (Logged.loadTodos st) = loadTodos st.
Proof. unfold Logged.loadTodos, loadTodos. now destruct (loadTodos_try st). Qed.

Lemma Logged_loadDarkMode (st : Storage) :
  fst (Logged.loadDarkMode st) = loadDarkMode st.
Proof. unfold Logged.loadDarkMode, loadDarkMode. now destruct (loadDarkMode_try st). Qed.

Lemma Logged_saveTodos (l : list Todo) (st : Storage) :
  fst (Logged.saveTodos l st) = saveTodos l st.
Proof.
  unfold Logged.saveTodos, saveTodos. now destruct (localStorage.setItem _ _ st).
Qed.

Lemma Logged_saveDarkMode (d : bool) (st : Storage) :
  fst (Logged.saveDarkMode d st) = saveDarkMode d st.
Proof.
  unfold Logged.saveDarkMode, saveDarkMode. now destruct (localStorage.setItem _ _ st).
Qed.

Lemma Logged_initialState (st : Storage) :
  fst (Logged.initialState st) = initialState st.
Proof.
  unfold Logged.initialState, initialState.
  rewrite <- Logged_loadTodos, <- Logged_loadDarkMode.
  now destruct (Logged.loadTodos st), (Logged.loadDarkMode st).
Qed.

Lemma Logged_mount (st : Storage) : fst (Logged.mount st) = mount st.
Proof.
  unfold Logged.mount, mount. rewrite <- Logged_initialState.
  destruct (Logged.initialState st) as [[s|] c0]; [|reflexivity]. cbn [fst].
  rewrite <- Logged_saveTodos. destruct (Logged.saveTodos (todos s) st) as [st1 c1].
  cbn [fst]. rewrite <- Logged_saveDarkMode.
  now destruct (Logged.saveDarkMode (darkMode s) st1).
Qed.

Lemma Logged_run_effects (e : Event) (before after : State) (st : Storage) :
  fst (Logged.run_effects e before after st) = run_effects e before after st.
Proof.
  destruct e; cbn [Logged.run_effects run_effects];
    rewrite <- ?Logged_saveTodos, <- ?Logged_saveDarkMode; try reflexivity.
  now destruct (trim (inputValue before)).
Qed.

Lemma Logged_step (e : Event) (w : State * Storage) :
  fst (Logged.step e w) = step e w.
Proof.
  unfold Logged.step, step. rewrite <- Logged_run_effects.
  now destruct (Logged.run_effects e (fst w) (handle e (fst w)) (snd w)).
Qed.

Lemma Logged_run_from (events : list Event) (w : State * Storage) (c : Logged.Console) :
  fst (fold_left
         (fun wc e => let (w', c) := Logged.step e (fst wc) in (w', snd wc ++ c))
         events (w, c))
  = run events w.
Proof.
  revert w c. induction events as [|e events IH]; intros w c; [reflexivity|].
  unfold run. cbn [fold_left fst snd]. rewrite <- Logged_step.
  destruct (Logged.step e w) as [w' c']. apply IH.
Qed.

Lemma Logged_run (events : list Event) (w : State * Storage) :
  fst (Logged.run events w) = run events w.
Proof. apply Logged_run_from. Qed.

Lemma loadTodos_try_stored (l : list Todo) (st : Storage) :
  localStorage.getItem STORAGE_TODOS st = Ok (Some (JSON.stringify l)) ->
  loadTodos_try st = Ok (js_of_Todos l).
Proof.
  intros H. unfold loadTodos_try. rewrite H. cbn [mbind result_bind].
  destruct (JSON_stringify_head l) as (tail & E).
  destruct (JSON.stringify l) as [|c raw] eqn:Es; [discriminate|].
  rewrite <- Es. apply JSON_parse_stringify.
Qed.

Lemma Logged_saveTodos_working (l : list Todo) (st : Storage) :
  denied st = false -> quota st = None -> snd (Logged.saveTodos l st) = [].
Proof.
  intros Hd Hq. unfold Logged.saveTodos, localStorage.setItem. now rewrite Hd, Hq.
Qed.

Lemma Logged_saveDarkMode_working (d : bool) (st : Storage) :
  denied st = false -> quota st = None -> snd (Logged.saveDarkMode d st) = [].
Proof.
  intros Hd Hq. unfold Logged.saveDarkMode, localStorage.setItem. now rewrite Hd, Hq.
Qed.

Lemma Logged_step_synced (e : Event) (w : State * Storage) :
  synced w -> snd (Logged.step e w) = [].
Proof.
  intros (Hd & Hq & _). unfold Logged.step.
  destruct (Logged.run_effects e (fst w) (handle e (fst w)) (snd w)) as [st' c] eqn:E.
  cbn [snd]. change c with (snd (st', c)). rewrite <- E.
  destruct e; cbn [Logged.run_effects];
    auto using Logged_saveTodos_working, Logged_saveDarkMode_working.
  destruct (trim (inputValue (fst w))); auto using Logged_saveTodos_working.
Qed.

Lemma Logged_run_synced (events : list Event) (w : State * Storage) (c : Logged.Console) :
  synced w ->
  snd (fold_left
         (fun wc e => let (w', c) := Logged.step e (fst wc) in (w', snd wc ++ c))
         events (w, c))
  = c.
Proof.
  revert w c. induction events as [|e events IH]; intros w c H; [reflexivity|].
  cbn [fold_left fst snd].
  pose proof (Logged_step_synced e w H) as Hc.
  pose proof (Logged_step e w) as Hw.
  destruct (Logged.step e w) as [w' c']. cbn [fst snd] in Hc, Hw. subst c' w'.
  rewrite app_nil_r. apply IH. now apply step_synced.
Qed.

Lemma Logged_mount_clean (st : Storage) :
  denied st = false -> quota st = None ->
  (forall raw, items st !! STORAGE_TODOS = Some raw -> exists l, raw = JSON.stringify l) ->
  snd (Logged.mount st) = [].
Proof.
  intros Hd Hq Hst. unfold Logged.mount, Logged.initialState.
  assert (E1 : exists v, loadTodos_try st = Ok v).
  { destruct (items st !! STORAGE_TODOS) as [raw|] eqn:E.
    - destruct (Hst raw eq_refl) as (l & ->). exists (js_of_Todos l).
      apply loadTodos_try_stored. unfold localStorage.getItem. now rewrite Hd, E.
    - exists (JArray []). unfold loadTodos_try, localStorage.getItem.
      now rewrite Hd, E. }
  assert (E2 : exists b, loadDarkMode_try st = Ok b).
  { unfold loadDarkMode_try, localStorage.getItem. rewrite Hd. cbn [mbind result_bind].
    destruct (items st !! STORAGE_DARKMODE); eauto. }
  destruct E1 as (v & E1), E2 as (b & E2).
  unfold Logged.loadTodos, Logged.loadDarkMode. rewrite E1, E2.
  destruct (as_Todos v) as [l|]; [|reflexivity]. cbn [todos darkMode app].
  pose proof (Logged_saveTodos_working l st Hd Hq) as H1.
  pose proof (Logged_saveTodos l st) as H1'.
  destruct (Logged.saveTodos l st) as [st1 c1]. cbn [fst snd] in H1, H1'. subst c1 st1.
  rewrite saveTodos_working by assumption.
  pose proof (Logged_saveDarkMode_working b
                (mkStorage false None (<[STORAGE_TODOS := JSON.stringify l]> (items st)))
                eq_refl eq_refl) as H2.
  destruct (Logged.saveDarkMode b _) as [st2 c2]. cbn [snd] in *. now subst c2.
Qed.

(** X20. On a store that takes every write and whose list entry, if any,
    is the text of a list, the application never calls [console.error]:
    not while the page loads and not during any session after it.  The
    console check of the tests then returns without throwing. *)
Theorem console_stays_clean (st : Storage) (w : State * Storage)
    (events : list Event) (inspect : exn -> jsstring) :
  denied st = false -> quota st = None ->
  (forall raw, items st !! STORAGE_TODOS = Some raw -> exists l, raw = JSON.stringify l) ->
  mount st = Some w ->
  Logged.mount st = (Some w, [])
  /\ Logged.run events w = (run events w, [])
  /\ assertNoConsoleErrors
       (List.map (console_event inspect) (snd (Logged.run events w)))
     = Returns.
Proof.
  intros Hd Hq Hst Hm.
  assert (Hs : synced w) by (eapply mount_synced; eassumption).
  assert (Hr : Logged.run events w = (run events w, [])).
  { rewrite (surjective_pairing (Logged.run events w)), Logged_run.
    unfold Logged.run. now rewrite Logged_run_synced. }
  split; [|split; [exact Hr|now rewrite Hr]].
  rewrite (surjective_pairing (Logged.mount st)), Logged_mount, Hm.
  now rewrite Logged_mount_clean.
Qed.

Lemma console_stays_clean_witness :
  Logged.run sample_events first_visit = (run sample_events first_visit, []).
Proof.
  apply (console_stays_clean cleared_storage first_visit sample_events (fun err => []));
    try reflexivity.
  intros raw H. discriminate H.
Defined.

Lemma Logged_run_effects_failed (e : Event) (before after : State) (st : Storage) :
  snd (Logged.run_effects e before after st) = [] \/
  (exists c, snd (Logged.run_effects e before after st) = [c])
  /\ fst (Logged.run_effects e before after st) = st.
Proof.
  assert (T : forall l, snd (Logged.saveTodos l st) = [] \/
            (exists c, snd (Logged.saveTodos l st) = [c])
            /\ fst (Logged.saveTodos l st) = st).
  { intros l. unfold Logged.saveTodos.
    destruct (localStorage.setItem _ _ st); [now left | right; eauto]. }
  assert (D : forall d, snd (Logged.saveDarkMode d st) = [] \/
            (exists c, snd (Logged.saveDarkMode d st) = [c])
            /\ fst (Logged.saveDarkMode d st) = st).
  { intros d. unfold Logged.saveDarkMode.
    destruct (localStorage.setItem _ _ st); [now left | right; eauto]. }
  destruct e; cbn [Logged.run_effects]; auto.
  destruct (trim (inputValue before)); auto.
Qed.

Lemma Logged_step_failed (e : Event) (w : State * Storage) :
  snd (Logged.step e w) = [] \/
  (exists c, snd (Logged.step e w) = [c]) /\ snd (step e w) = snd w.
Proof.
  rewrite <- Logged_step. unfold Logged.step.
  pose proof (Logged_run_effects_failed e (fst w) (handle e (fst w)) (snd w)) as H.
  destruct (Logged.run_effects e (fst w) (handle e (fst w)) (snd w)) as [st' c].
  exact H.
Qed.

(** X21. A failure of the store is reported on the console and nowhere
    else.  An event makes one call of [console.error] at most, and when
    it makes one the store is as it was before the event, while the
    state has moved on as in a session without failures.  On a store
    that refuses access a page load makes four calls, one per function
    of the persistence layer, and starts from the empty list in dark
    mode; the console check of the tests then throws. *)
Theorem failures_are_logged (e : Event) (w : State * Storage)
    (q : option nat) (it : gmap (list N) (list N)) (inspect : exn -> jsstring) :
  fst (Logged.step e w) = step e w
  /\ length (snd (Logged.step e w)) <= 1
  /\ (snd (Logged.step e w) <> [] -> snd (step e w) = snd w)
  /\ fst (step e w) = handle e (fst w)
  /\ Logged.mount (mkStorage true q it)
     = (Some (freshState, mkStorage true q it),
        [ console_error (js "Failed to load todos from localStorage") SecurityError;
          console_error (js "Failed to load dark mode preference") SecurityError;
          console_error (js "Failed to save todos to localStorage") SecurityError;
          console_error (js "Failed to save dark mode preference") SecurityError ])
  /\ exists message,
       assertNoConsoleErrors
         (List.map (console_event inspect) (snd (Logged.mount (mkStorage true q it))))
       = Throws (mkError message).
Proof.
  split; [apply Logged_step|].
  split; [destruct (Logged_step_failed e w) as [-> | ((c & ->) & _)]; cbn; lia|].
  split; [intros H; destruct (Logged_step_failed e w) as [E | (_ & E)];
          [now rewrite E in H | exact E]|].
  split; [reflexivity|]. split; [reflexivity|].
  eexists. change (snd (Logged.mount (mkStorage true q it)))
    with [ console_error (js "Failed to load todos from localStorage") SecurityError;
           console_error (js "Failed to load dark mode preference") SecurityError;
           console_error (js "Failed to save todos to localStorage") SecurityError;
           console_error (js "Failed to save dark mode preference") SecurityError ].
  cbn [List.map console_event]. unfold assertNoConsoleErrors.
  cbn [fold_left]. unfold on_console. cbn [ConsoleMessage.type ConsoleMessage.text].
  rewrite !str_eqb_refl. cbn [app]. reflexivity.
Qed.


(** ** The end-to-end tests of the repository, run on the model

    Each test of [e2e/app.spec.ts] starts from a cleared store; a click
    on the checkbox or on the delete button of a row is the event with
    the id of that row. *)

Example test_first_visit : mount cleared_storage = Some first_visit.
Proof. reflexivity. Qed.

Example test_add_a_todo :
  let w := run (fill_and_enter (js "Buy groceries") (js "u1")) first_visit in
  count "todo-item" w = 1
  /\ texts "todo-item" w = [js "Buy groceries"]
  /\ count "delete-button" w = 1.
Proof. vm_compute. repeat split. Qed.

Example test_mark_complete :
  let w := run (fill_and_enter (js "Task one") (js "u1")
                ++ fill_and_enter (js "Task two") (js "u2")) first_visit in
  texts "active-count" w = [js "2 items left"]
  /\ texts "active-count" (step (Toggle (js "u1")) w) = [js "1 item left"]
  /\ List.map completed (todos (fst (step (Toggle (js "u1")) w))) = [true; false].
Proof. vm_compute. repeat split. Qed.

Example test_delete :
  let w := run (fill_and_enter (js "Delete me") (js "u1")) first_visit in
  count "todo-item" w = 1
  /\ count "todo-item" (step (Delete (js "u1")) w) = 0
  /\ count "empty-state" (step (Delete (js "u1")) w) = 1.
Proof. vm_compute. repeat split. Qed.

Example test_toggle_dark_mode :
  darkmode_attribute first_visit = [Some (js "true")]
  /\ darkmode_attribute (step ToggleTheme first_visit) = [Some (js "false")]
  /\ darkmode_attribute (step ToggleTheme (step ToggleTheme first_visit))
     = [Some (js "true")].
Proof. vm_compute. repeat split. Qed.

Example test_filters :
  let w := run (fill_and_enter (js "Active task 1") (js "u1")
                ++ fill_and_enter (js "Active task 2") (js "u2")
                ++ fill_and_enter (js "Done task") (js "u3")
                ++ [Toggle (js "u3")]) first_visit in
  count "todo-item" (step (SetFilter All) w) = 3
  /\ texts "todo-item" (step (SetFilter Active) w)
     = [js "Active task 1"; js "Active task 2"]
  /\ texts "todo-item" (step (SetFilter Completed) w) = [js "Done task"]
  /\ count "todo-item" (step (SetFilter All) (step (SetFilter Completed) w)) = 3.
Proof. vm_compute. repeat split. Qed.

Example test_empty_input :
  let w := run [Submit (js "u1") (js "2024-01-01T00:00:00.000Z");
                Submit (js "u2") (js "2024-01-01T00:00:00.000Z")] first_visit in
  count "todo-item" w = 0 /\ count "empty-state" w = 1.
Proof. vm_compute. repeat split. Qed.

Example test_clear_completed :
  let w := run (fill_and_enter (js "Keep me 1") (js "u1")
                ++ fill_and_enter (js "Delete me 1") (js "u2")
                ++ fill_and_enter (js "Delete me 2") (js "u3")
                ++ [Toggle (js "u2"); Toggle (js "u3")]) first_visit in
  count "todo-item" w = 3
  /\ count "clear-completed" w = 1
  /\ texts "todo-item" (step ClearCompleted w) = [js "Keep me 1"].
Proof. vm_compute. repeat split. Qed.

Example test_persistence :
  let w := run (fill_and_enter (js "Persisted task") (js "u1") ++ [ToggleTheme])
               first_visit in
  (texts "todo-item" <$> mount (snd w)) = Some [js "Persisted task"]
  /\ (darkmode_attribute <$> mount (snd w)) = Some [Some (js "false")].
Proof. vm_compute. repeat split. Qed.

Example test_empty_state :
  texts "empty-state" first_visit
  = [[0x2713%N] ++ js "No todos yet " ++ [0x2014%N] ++ js " add one above!"].
Proof. vm_compute. reflexivity. Qed.

(** ** The library functions of the model, on sample inputs *)

Example trim_samples :
  trim (js "  Water plants ") = js "Water plants"
  /\ trim ([9; 10; 13; 160; 8203; 65279; 12288]%N ++ js "a b" ++ [8232; 32]%N)
     = [8203%N; 65279%N; 12288%N] ++ js "a b"
  /\ trim [9; 32; 160; 5760; 8192; 8202; 8232; 8233; 8239; 8287; 12288; 65279]%N = [].
Proof. vm_compute. repeat split. Qed.

Example JSON_parse_accepts :
  JSON.parse (js " [ ] ") = Ok (JArray [])
  /\ JSON.parse (js "[[[[]]],{}]") = Ok (JArray [JArray [JArray [JArray []]]; JObject []])
  /\ JSON.parse (js "-0.5e+3") = Ok (JNumber (js "-0.5e+3"))
  /\ JSON.parse (js "[true, false ,null]")
     = Ok (JArray [JBoolean true; JBoolean false; JNull])
  /\ JSON.parse ([begin_object; quotation_mark] ++ js "aA\n" ++ [quotation_mark]
                 ++ js " : 1 }")
     = Ok (JObject [(js "aA" ++ [10%N], JNumber (js "1"))]).
Proof. vm_compute. repeat split. Qed.

Example JSON_parse_rejects :
  JSON.parse [] = Throw SyntaxError
  /\ JSON.parse (js "[1,2,]") = Throw SyntaxError
  /\ JSON.parse (js "[1 2]") = Throw SyntaxError
  /\ JSON.parse (js "{a:1}") = Throw SyntaxError
  /\ JSON.parse (js "01") = Throw SyntaxError
  /\ JSON.parse (js "1.") = Throw SyntaxError
  /\ JSON.parse (js "nul") = Throw SyntaxError
  /\ JSON.parse (js "[] []") = Throw SyntaxError
  /\ JSON.parse (js "'a'") = Throw SyntaxError
  /\ JSON.parse ([quotation_mark; 9%N; quotation_mark]) = Throw SyntaxError
  /\ JSON.parse ([quotation_mark] ++ js "\x41" ++ [quotation_mark]) = Throw SyntaxError
  /\ JSON.parse ([quotation_mark] ++ js "abc") = Throw SyntaxError.
Proof. vm_compute. repeat split. Qed.

Example JSON_stringify_sample :
  JSON.stringify [mkTodo (js "a") ([quotation_mark; 10%N] ++ js "x") false (js "t")]
  = js "[{" ++ QuoteJSONString (js "id") ++ js ":" ++ QuoteJSONString (js "a")
    ++ js "," ++ QuoteJSONString (js "text") ++ js ":"
    ++ [quotation_mark; reverse_solidus; quotation_mark; reverse_solidus; 110%N]
    ++ js "x" ++ [quotation_mark]
    ++ js "," ++ QuoteJSONString (js "completed") ++ js ":false,"
    ++ QuoteJSONString (js "createdAt") ++ js ":" ++ QuoteJSONString (js "t") ++ js "}]"
  /\ QuoteJSONString [0xD83D; 0xDE00; 0xD800; 31; 127]%N
     = [quotation_mark; 0xD83D; 0xDE00]%N ++ js "\ud800\u001f" ++ [127%N; quotation_mark]
  /\ JSON.stringify [] = js "[]".
Proof. vm_compute. repeat split. Qed.
